(** * ScholarDock front end: a shallow embedding of the React components
    and of the contracts they rely on.

    The handlers of the components are embedded as functions from the
    component state (and the environment's answer, where they await one)
    to the new state and the list of effects they perform, in order. *)

From Stdlib Require Import ZArith NArith List Bool Lia Ascii Sorted.
From stdpp Require Import base gmap sets list strings.

Local Open Scope Z_scope.

(** ** JavaScript strings

    A JavaScript string is a sequence of UTF-16 code units.  Texts that
    are only displayed or compared for equality (labels, status words)
    are kept as [string]; texts whose characters are inspected (the
    trimmed form fields) are sequences of code units. *)

Module Js.

Definition code_unit := N.
Definition jsstring := list code_unit.

(** The code units of an ASCII literal. *)
Definition of_ascii_string (s : string) : jsstring :=
  map Ascii.N_of_ascii (String.list_ascii_of_string s).

(** WhiteSpace and LineTerminator code points of ECMAScript, the ones
    [String.prototype.trim] strips.  All of them are in the basic
    plane, so the test is on single code units. *)
Definition is_white_space (c : code_unit) : bool :=
  ((c =? 0x9) || (c =? 0xA) || (c =? 0xB) || (c =? 0xC) || (c =? 0xD)
   || (c =? 0x20) || (c =? 0xA0) || (c =? 0x1680)
   || ((0x2000 <=? c) && (c <=? 0x200A))
   || (c =? 0x2028) || (c =? 0x2029) || (c =? 0x202F) || (c =? 0x205F)
   || (c =? 0x3000) || (c =? 0xFEFF))%N.

Fixpoint trimStart (s : jsstring) : jsstring :=
  match s with
  | [] => []
  | c :: s' => if is_white_space c then trimStart s' else s
  end.

Definition trimEnd (s : jsstring) : jsstring := rev (trimStart (rev s)).

(** [s.trim()] *)
Definition trim (s : jsstring) : jsstring := trimEnd (trimStart s).

(** Truthiness of a string: the empty string is the only falsy one. *)
Definition truthy (s : jsstring) : bool :=
  match s with [] => false | _ => true end.

(** A keyword is blank when it is empty or has only white space. *)
Definition blank (s : jsstring) : bool := forallb is_white_space s.

(** Insertion into a [Set] or a keyed collection keeps the first value
    of each key: the elements of [l] whose key is not in [seen] and has
    not occurred earlier in [l], in order. *)
Fixpoint first_by {A K} `{EqDecision K} (key : A -> K) (seen : list K) (l : list A)
  : list A :=
  match l with
  | [] => []
  | x :: l' =>
      if decide (key x ∈ seen) then first_by key seen l'
      else x :: first_by key (key x :: seen) l'
  end.

End Js.

(** ** services/api: the data exchanged with the back end *)

Record SearchRequest := {
  keyword : Js.jsstring;
  num_results : Z;
  start_year : option Z;
  end_year : option Z;
  sort_by : string;
  filter_by_title : option bool;
  exclude_duplicates : option bool
}.

Module AuthorLink.
Record t := {
  name : string;
  scholar_url : string
}.
End AuthorLink.

Module AuthorEmail.
Record t := {
  name : string;
  email : option string;      (* string | null *)
  email_source : string;
  homepage : option string
}.

(** Truthiness of [e.email]: [null] and the empty string are falsy. *)
Definition has_email (e : t) : bool :=
  match email e with
  | Some s => negb (String.eqb s "")
  | None => false
  end.

Definition is_pdf_fallback (e : t) : bool :=
  String.eqb (email_source e) "pdf_fallback".
End AuthorEmail.

Module Article.
Record t := {
  id : option Z;              (* id?: number *)
  title : string;
  authors : option string;
  author_links : option (list AuthorLink.t);
  author_emails : option (list AuthorEmail.t);
  pdf_fallback_emails : option (list string);
  venue : option string;
  publisher : option string;
  year : option Z;
  citations : Z;
  description : option string;
  url : option string
}.
End Article.

Module ProxyStatus.
Record t := {
  proxy_enabled : bool;
  proxy_url : option string;
  status : string;
  message : option string
}.
End ProxyStatus.

(** The object [searchAPI] of services/api. *)
Module SearchAPI.

(** The names of its members. *)
Definition members : list string :=
  [ "search"; "getSearchHistory"; "getSearchDetails"; "deleteSearch";
    "extractAuthorEmails"; "extractAllAuthorEmails"; "getProxyStatus";
    "exportResults"; "previewEmail"; "sendEmail"; "getEmailConfig" ].

(** [searchAPI.name(...)] can be called when [name] is a member; for any
    other name the value is [undefined] and the call throws a TypeError
    on the spot, before anything is requested. *)
Definition callable (name : string) : bool := bool_decide (name ∈ members).

End SearchAPI.

(** ** SearchPage *)

Module SearchPage.

Inductive effect :=
| PreventDefault
| ToastError (msg : string)
| SearchMutate (params : SearchRequest).

(** [handleSubmit]: the effects of one submission of the form. *)
Definition handleSubmit (formData : SearchRequest) : list effect :=
  PreventDefault ::
  (if negb (Js.truthy (Js.trim (keyword formData)))
   then [ToastError "Please enter a search keyword"]
   else [SearchMutate formData]).

Definition is_search (e : effect) : bool :=
  match e with SearchMutate _ => true | _ => false end.

End SearchPage.

(** ** Progress messages

    [ProgressData] (TopProgressBar) and [BatchProgress]
    (BatchEmailSender) declare the same fields: the JSON object that
    arrives on the socket [batch_email_<searchId>]. *)

Record BatchResult := {
  result_total : Z;
  result_sent : Z;
  result_failed : Z
}.

Module ProgressData.
Record t := {
  type : string;
  step : string;
  title : string;
  description : string;
  progress : option Z;
  total : option Z;
  sent : option Z;
  failed : option Z;
  status : option string;
  result : option BatchResult
}.
End ProgressData.

(** [data.type === 'completion'] *)
Definition is_completion (d : ProgressData.t) : bool :=
  String.eqb (ProgressData.type d) "completion".

(** The division in [Math.round((result.sent / result.total) * 100)]:
    its two operands.  The number displayed is the rounding of a double
    and is not part of the model; what matters here is the divisor, for
    which 0 would put [Infinity] or [NaN] on the screen. *)
Record division := {
  dividend : Z;
  divisor : Z
}.

(** The success-rate line of a completion panel:
    [isComplete && progress.result && (... result.sent > 0 && rate ...)].
    [None]: the line is not rendered and nothing is divided. *)
Definition success_rate_line (isComplete : bool) (p : option ProgressData.t)
  : option division :=
  if isComplete then
    match p with
    | Some d =>
        match ProgressData.result d with
        | Some r =>
            if 0 <? result_sent r
            then Some {| dividend := result_sent r; divisor := result_total r |}
            else None
        | None => None
        end
    | None => None
    end
  else None.

(** ** BatchEmailSender *)

Module BatchEmailSender.

Abbreviation BatchProgress := ProgressData.t (only parsing).

Record state := {
  subject : Js.jsstring;
  includeAuthorEmails : bool;
  includePdfEmails : bool;
  isLoading : bool;
  progress : option BatchProgress;
  isComplete : bool
}.

Definition initial : state := {|
  subject := Js.of_ascii_string
    "Introducing ABKD: A Unified Framework for Knowledge Distillation (ICML 2025 Oral)";
  includeAuthorEmails := true;
  includePdfEmails := true;
  isLoading := false;
  progress := None;
  isComplete := false
|}.

(** The body of the POST to [/api/email/batch-send]. *)
Record batch_request := {
  search_id : Z;
  req_subject : Js.jsstring;
  include_author_emails : bool;
  include_pdf_emails : bool
}.

Inductive effect :=
| Alert (msg : string)
| PostBatchSend (body : batch_request).

(** What the awaited [fetch] does: it, or the reading of the answer's
    body, throws (an [Error] with a message, or something else); it
    answers with a status that is not ok (with or without a [detail]);
    or it answers ok. *)
Inductive fetch_outcome :=
| FetchThrew (message : option string)
| ResponseNotOk (detail : option string)
| ResponseOk.

Definition set_isLoading (b : bool) (st : state) : state :=
  {| subject := subject st; includeAuthorEmails := includeAuthorEmails st;
     includePdfEmails := includePdfEmails st; isLoading := b;
     progress := progress st; isComplete := isComplete st |}.

Definition starting (st : state) : state :=
  {| subject := subject st; includeAuthorEmails := includeAuthorEmails st;
     includePdfEmails := includePdfEmails st; isLoading := true;
     progress := None; isComplete := false |}.

Definition string_or (o : option string) (d : string) : string :=
  match o with
  | Some s => if String.eqb s "" then d else s
  | None => d
  end.

(** [handleBatchSend], when nothing arrives between the request and its
    answer; [send] below is the handler with what arrives in between. *)
Definition handleBatchSend (searchId : Z) (st : state) (answer : fetch_outcome)
  : state * list effect :=
  if negb (Js.truthy (Js.trim (subject st))) then
    (st, [Alert "请输入邮件主题"])
  else if negb (includeAuthorEmails st) && negb (includePdfEmails st) then
    (st, [Alert "请至少选择一种邮箱类型"])
  else
    let post := PostBatchSend {|
      search_id := searchId;
      req_subject := subject st;
      include_author_emails := includeAuthorEmails st;
      include_pdf_emails := includePdfEmails st |} in
    match answer with
    | ResponseOk => (starting st, [post])
    | ResponseNotOk detail =>
        (set_isLoading false (starting st),
         [post; Alert ("批量发送失败: " +:+ string_or detail "批量发送失败")])
    | FetchThrew message =>
        (set_isLoading false (starting st),
         [post; Alert ("批量发送失败: " +:+
                       match message with Some m => m | None => "未知错误" end)])
    end.

(** The start button: rendered unless the run is complete; its
    [disabled] attribute. *)
Definition start_button_disabled (st : state) : bool :=
  isLoading st || negb (Js.truthy (Js.trim (subject st)))
  || (negb (includeAuthorEmails st) && negb (includePdfEmails st)).

Definition start_button (st : state) : option bool :=
  if negb (isComplete st) then Some (start_button_disabled st) else None.

(** A click on the start button: a button that is not rendered or is
    disabled dispatches no click. *)
Definition click_start (searchId : Z) (st : state) (answer : fetch_outcome)
  : state * list effect :=
  match start_button st with
  | Some false => handleBatchSend searchId st answer
  | _ => (st, [])
  end.

Definition is_post (e : effect) : bool :=
  match e with PostBatchSend _ => true | Alert _ => false end.

(** [websocket.onmessage]: [None] is a frame that [JSON.parse] rejects
    (the handler catches the exception and leaves the state alone). *)
Definition onmessage (st : state) (frame : option BatchProgress) : state :=
  match frame with
  | None => st
  | Some data =>
      if String.eqb (ProgressData.type data) "completion" then
        {| subject := subject st; includeAuthorEmails := includeAuthorEmails st;
           includePdfEmails := includePdfEmails st; isLoading := false;
           progress := Some data; isComplete := true |}
      else
        {| subject := subject st; includeAuthorEmails := includeAuthorEmails st;
           includePdfEmails := includePdfEmails st; isLoading := isLoading st;
           progress := Some data; isComplete := isComplete st |}
  end.

Definition completion_rate (st : state) : option division :=
  success_rate_line (isComplete st) (progress st).

(** The dialog after the messages [frames] arrived in that order. *)
Definition observe (st : state) (frames : list BatchProgress) : state :=
  fold_left (fun s d => onmessage s (Some d)) frames st.

(** *** The dialog as a machine *)

(** What can happen to the open dialog: the user edits the subject or
    ticks a box, clicks the start button (and the server answers), or a
    frame arrives on the socket. *)
Inductive event :=
| SetSubject (value : Js.jsstring)
| SetIncludeAuthorEmails (checked : bool)
| SetIncludePdfEmails (checked : bool)
| ClickStart (answer : fetch_outcome)
| Message (frame : option BatchProgress).

(** The subject field and the two boxes are [disabled={isLoading}]: a
    disabled input takes no edit. *)
Definition step (searchId : Z) (st : state) (ev : event) : state * list effect :=
  match ev with
  | SetSubject value =>
      if isLoading st then (st, [])
      else ({| subject := value;
               includeAuthorEmails := includeAuthorEmails st;
               includePdfEmails := includePdfEmails st;
               isLoading := isLoading st; progress := progress st;
               isComplete := isComplete st |}, [])
  | SetIncludeAuthorEmails checked =>
      if isLoading st then (st, [])
      else ({| subject := subject st;
               includeAuthorEmails := checked;
               includePdfEmails := includePdfEmails st;
               isLoading := isLoading st; progress := progress st;
               isComplete := isComplete st |}, [])
  | SetIncludePdfEmails checked =>
      if isLoading st then (st, [])
      else ({| subject := subject st;
               includeAuthorEmails := includeAuthorEmails st;
               includePdfEmails := checked;
               isLoading := isLoading st; progress := progress st;
               isComplete := isComplete st |}, [])
  | ClickStart answer => click_start searchId st answer
  | Message frame => (onmessage st frame, [])
  end.

(** The dialog after a sequence of events, and everything it did. *)
Fixpoint run (searchId : Z) (st : state) (evs : list event) : state * list effect :=
  match evs with
  | [] => (st, [])
  | ev :: evs' =>
      let '(st1, done1) := step searchId st ev in
      let '(st2, done2) := run searchId st1 evs' in
      (st2, done1 ++ done2)
  end.

(** The body the dialog would post in state [st]. *)
Definition body_of (searchId : Z) (st : state) : batch_request :=
  {| search_id := searchId; req_subject := subject st;
     include_author_emails := includeAuthorEmails st;
     include_pdf_emails := includePdfEmails st |}.

(** The close and cancel buttons are [disabled={isLoading}]. *)
Definition close_disabled (st : state) : bool := isLoading st.

(** An event that ends the run: a completion frame. *)
Definition completes (ev : event) : bool :=
  match ev with
  | Message (Some d) => is_completion d
  | _ => false
  end.

(** *** [handleBatchSend] around its [await] *)

(** The handler up to its [await]: a check fails and alerts, or the
    three state updates are made and the request leaves. *)
Inductive begun :=
| Rejected (msg : string)
| Requested (st : state) (body : batch_request).

Definition begin_send (searchId : Z) (st : state) : begun :=
  if negb (Js.truthy (Js.trim (subject st))) then
    Rejected "请输入邮件主题"
  else if negb (includeAuthorEmails st) && negb (includePdfEmails st) then
    Rejected "请至少选择一种邮箱类型"
  else
    Requested (starting st) (body_of searchId st).

(** The handler from the answer on; [st] is the state the dialog has by
    then.  The functions it calls are the state setters and [alert]. *)
Definition settle_send (st : state) (answer : fetch_outcome)
  : state * list effect :=
  match answer with
  | ResponseOk => (st, [])
  | ResponseNotOk detail =>
      (set_isLoading false st,
       [Alert ("批量发送失败: " +:+ string_or detail "批量发送失败")])
  | FetchThrew message =>
      (set_isLoading false st,
       [Alert ("批量发送失败: " +:+
               match message with Some m => m | None => "未知错误" end)])
  end.

(** A frame whose text parses to a value without fields of its own:
    [null], a number, a string, a boolean or an array.
    [setProgress(data)] has
    stored it when [data.type] is read, which throws for [null], into
    the [catch], and gives [undefined] for the others.  The state keeps
    of [progress] the [BatchProgress] it holds: after such a frame it
    holds none. *)
Definition onplain (st : state) : state :=
  {| subject := subject st; includeAuthorEmails := includeAuthorEmails st;
     includePdfEmails := includePdfEmails st; isLoading := isLoading st;
     progress := None; isComplete := isComplete st |}.

(** What can happen while a request is out: any event of the dialog,
    or a frame with such a value. *)
Inductive arrival :=
| Event (ev : event)
| PlainFrame.

Definition arrive (searchId : Z) (st : state) (a : arrival)
  : state * list effect :=
  match a with
  | Event ev => step searchId st ev
  | PlainFrame => (onplain st, [])
  end.

Fixpoint arrivals (searchId : Z) (st : state) (l : list arrival)
  : state * list effect :=
  match l with
  | [] => (st, [])
  | a :: l' =>
      let '(st1, done1) := arrive searchId st a in
      let '(st2, done2) := arrivals searchId st1 l' in
      (st2, done1 ++ done2)
  end.

Definition ends (a : arrival) : bool :=
  match a with
  | Event ev => completes ev
  | PlainFrame => false
  end.

(** One click on the start button: the handler runs to its [await],
    [between] is what arrives while the request is out, then the
    [answer] is handled. *)
Definition send (searchId : Z) (st : state) (between : list arrival)
  (answer : fetch_outcome) : state * list effect :=
  match start_button st with
  | Some false =>
      match begin_send searchId st with
      | Rejected msg => (st, [Alert msg])
      | Requested st1 body =>
          let '(st2, done2) := arrivals searchId st1 between in
          let '(st3, done3) := settle_send st2 answer in
          (st3, PostBatchSend body :: done2 ++ done3)
      end
  | _ => (st, [])
  end.

End BatchEmailSender.

(** ** TopProgressBar *)

Module TopProgressBar.

Record state := {
  progress : option ProgressData.t;
  isComplete : bool
}.

Definition initial : state := {| progress := None; isComplete := false |}.

Inductive effect :=
| SetTimeoutOnClose (ms : Z).

(** [websocket.onmessage] on a frame that [JSON.parse] rejects ([None])
    or that carries a [ProgressData] object; [onframe] below takes the
    frames of any JSON text. *)
Definition onmessage (st : state) (frame : option ProgressData.t)
  : state * list effect :=
  match frame with
  | None => (st, [])
  | Some data =>
      if String.eqb (ProgressData.type data) "completion" then
        ({| progress := Some data; isComplete := true |},
         [SetTimeoutOnClose 5000])
      else
        ({| progress := Some data; isComplete := isComplete st |}, [])
  end.

(** The effect that resets the state when the bar is hidden. *)
Definition on_hidden (st : state) : state := initial.

Definition completion_rate (st : state) : option division :=
  success_rate_line (isComplete st) (progress st).

(** The bar after the messages [frames] arrived in that order. *)
Definition observe (st : state) (frames : list ProgressData.t) : state :=
  fold_left (fun s d => fst (onmessage s (Some d))) frames st.

(** The bar after the frames [frames], parsed or not, with the close
    timers it has set. *)
Fixpoint receive (st : state) (frames : list (option ProgressData.t))
  : state * list effect :=
  match frames with
  | [] => (st, [])
  | f :: frames' =>
      let '(st1, done1) := onmessage st f in
      let '(st2, done2) := receive st1 frames' in
      (st2, done1 ++ done2)
  end.

(** The component renders nothing when it is hidden or has no message. *)
Definition rendered (isVisible : bool) (st : state) : bool :=
  isVisible && match progress st with Some _ => true | None => false end.

(** *** Frames of any JSON text *)

(** A frame by what [JSON.parse] makes of its text: it throws; it
    gives [null]; it gives a number, a string, a boolean or an array,
    values without a [type] ([truthy] tells whether the value is
    truthy); or it gives an object, read at the declared
    [ProgressData]. *)
Inductive frame :=
| Unparseable
| Null
| Plain (truthy : bool)
| Data (d : ProgressData.t).

(** What [progress] holds: [setProgress(data)] stores whatever was
    parsed. *)
Inductive held :=
| HeldNull
| HeldPlain (truthy : bool)
| HeldData (d : ProgressData.t).

Record view := { shown : held; complete : bool }.

Definition widen (st : state) : view :=
  {| shown := match progress st with
              | Some d => HeldData d
              | None => HeldNull
              end;
     complete := isComplete st |}.

(** [websocket.onmessage] on any frame.  [setProgress(data)] comes
    before [data.type] is read: of [null] the reading throws, into the
    [catch]; of a plain value it gives [undefined]. *)
Definition onframe (v : view) (f : frame) : view * list effect :=
  match f with
  | Unparseable => (v, [])
  | Null => ({| shown := HeldNull; complete := complete v |}, [])
  | Plain b => ({| shown := HeldPlain b; complete := complete v |}, [])
  | Data data =>
      if String.eqb (ProgressData.type data) "completion" then
        ({| shown := HeldData data; complete := true |},
         [SetTimeoutOnClose 5000])
      else
        ({| shown := HeldData data; complete := complete v |}, [])
  end.

Fixpoint receive_frames (v : view) (frames : list frame)
  : view * list effect :=
  match frames with
  | [] => (v, [])
  | f :: frames' =>
      let '(v1, done1) := onframe v f in
      let '(v2, done2) := receive_frames v1 frames' in
      (v2, done1 ++ done2)
  end.

(** [if (!isVisible || !progress) return null] *)
Definition shows (isVisible : bool) (v : view) : bool :=
  isVisible && match shown v with
               | HeldNull => false
               | HeldPlain b => b
               | HeldData _ => true
               end.

Definition parsed (f : option ProgressData.t) : frame :=
  match f with
  | Some d => Data d
  | None => Unparseable
  end.

Definition parses (f : frame) : bool :=
  match f with
  | Unparseable => false
  | _ => true
  end.

Definition completes (f : frame) : bool :=
  match f with
  | Data d => is_completion d
  | _ => false
  end.

(** What [progress] holds after the frame [f], having held [h]. *)
Definition hold (f : frame) (h : held) : held :=
  match f with
  | Unparseable => h
  | Null => HeldNull
  | Plain b => HeldPlain b
  | Data d => HeldData d
  end.

End TopProgressBar.

(** ** ResultsPage *)

Module ResultsPage.

(** [Array.from(new Set(xs))]: the distinct values of [xs] in the order
    of their first occurrence. *)
Definition set_from {A} `{EqDecision A} (xs : list A) : list A :=
  Js.first_by (fun x => x) [] xs.

(** What react-query hands to a render: the data of the [proxyStatus]
    query ([None] while it has none) and the [isLoading] flags of the
    two mutations. *)
Record env := {
  proxyStatus : option ProxyStatus.t;
  extractEmailsMutation_isLoading : bool;
  extractAllEmailsMutation_isLoading : bool
}.

(** [proxyStatus?.status !== 'connected'] *)
Definition not_connected (e : env) : bool :=
  match proxyStatus e with
  | Some p => negb (String.eqb (ProxyStatus.status p) "connected")
  | None => true
  end.

(** The label of the proxy banner; no banner without proxy data. *)
Definition proxy_banner (e : env) : option string :=
  match proxyStatus e with
  | Some p =>
      Some (if String.eqb (ProxyStatus.status p) "connected" then "已连接"
            else if String.eqb (ProxyStatus.status p) "disabled" then "未启用"
            else "连接失败")
  | None => None
  end.

(** The [title] attribute of both extraction buttons. *)
Definition extract_title (e : env) : string :=
  if not_connected e then "需要代理连接才能提取邮箱" else "".

Inductive request :=
| PostExtractAuthorEmails (articleId : option Z)
| PostExtractAllAuthorEmails (searchId : Z).

Inductive toast :=
| ExtractDone (authorEmailsCount pdfEmailsCount : nat)
| ExtractFailed (detail : string)
| ExtractAllStarted (total_articles : Z)
| ExtractAllFailed (detail : string).

(** The page: its [extractingEmails] state, the single-article
    requests issued and not yet settled, and what it has done so far
    (latest first). *)
Record page := {
  extractingEmails : gset (option Z);
  pending : list (option Z);
  requests : list request;
  toasts : list toast
}.

Definition initial : page := {|
  extractingEmails := ∅; pending := []; requests := []; toasts := []
|}.

(** The extract-all button. *)
Definition extract_all_disabled (e : env) : bool :=
  extractAllEmailsMutation_isLoading e || not_connected e.

(** The per-article button is rendered for an article with author
    links and no [author_emails] (an empty array is truthy). *)
Definition extract_button_rendered (a : Article.t) : bool :=
  match Article.author_links a with
  | Some (_ :: _) =>
      match Article.author_emails a with None => true | Some _ => false end
  | _ => false
  end.

Definition extract_button_disabled (pg : page) (e : env) (a : Article.t) : bool :=
  bool_decide (Article.id a ∈ extractingEmails pg)
  || extractEmailsMutation_isLoading e
  || not_connected e.

(** The answer to a single-article extraction. *)
Inductive extract_answer :=
| Extracted (author_emails : option (list AuthorEmail.t))
| ExtractError (detail : string).

Definition authorEmailsCount (l : option (list AuthorEmail.t)) : nat :=
  length (List.filter (fun e => negb (AuthorEmail.is_pdf_fallback e)
                           && AuthorEmail.has_email e) (default [] l)).

Definition pdfEmailsCount (l : option (list AuthorEmail.t)) : nat :=
  length (List.filter AuthorEmail.is_pdf_fallback (default [] l)).

Fixpoint remove_first (k : option Z) (l : list (option Z)) : list (option Z) :=
  match l with
  | [] => []
  | x :: l' => if decide (x = k) then l' else x :: remove_first k l'
  end.

Inductive event :=
| ClickExtract (e : env) (a : Article.t)
| ClickExtractAll (e : env) (searchId : Z)
| ExtractSettled (articleId : option Z) (answer : extract_answer)
| ExtractAllSettled (answer : Z + string).

(** [extractEmailsMutation.mutate(article.id!)]: [onMutate] adds the id
    to the set and the request leaves. *)
Definition mutate_extract (pg : page) (k : option Z) : page :=
  {| extractingEmails := {[k]} ∪ extractingEmails pg;
     pending := k :: pending pg;
     requests := PostExtractAuthorEmails k :: requests pg;
     toasts := toasts pg |}.

(** [onSuccess] or [onError], then [onSettled]. *)
Definition settle_extract (pg : page) (k : option Z) (ans : extract_answer) : page :=
  {| extractingEmails := extractingEmails pg ∖ {[k]};
     pending := remove_first k (pending pg);
     requests := requests pg;
     toasts := match ans with
               | Extracted l => ExtractDone (authorEmailsCount l) (pdfEmailsCount l)
               | ExtractError d => ExtractFailed d
               end :: toasts pg |}.

Definition step (pg : page) (ev : event) : page :=
  match ev with
  | ClickExtract e a =>
      if extract_button_rendered a && negb (extract_button_disabled pg e a)
      then mutate_extract pg (Article.id a)
      else pg
  | ClickExtractAll e searchId =>
      if negb (extract_all_disabled e)
      then {| extractingEmails := extractingEmails pg; pending := pending pg;
              requests := PostExtractAllAuthorEmails searchId :: requests pg;
              toasts := toasts pg |}
      else pg
  | ExtractSettled k ans =>
      if bool_decide (k ∈ pending pg) then settle_extract pg k ans else pg
  | ExtractAllSettled ans =>
      {| extractingEmails := extractingEmails pg; pending := pending pg;
         requests := requests pg;
         toasts := match ans with
                   | inl n => ExtractAllStarted n
                   | inr detail => ExtractAllFailed detail
                   end :: toasts pg |}
  end.

Definition run (evs : list event) : page := fold_left step evs initial.

(** The invariant of the page: the pending single-article requests are
    for pairwise distinct articles, all of them in [extractingEmails]. *)
Definition in_flight_once (pg : page) : Prop :=
  NoDup (pending pg) /\ forall k, k ∈ pending pg -> k ∈ extractingEmails pg.

(** What is shown next to an author of an article. *)
Inductive author_cell :=
| EmailShown (email source : string)
| PdfExtracted
| NoneShown (source : string)
| Nothing.

Definition find_author_email (a : Article.t) (author : AuthorLink.t)
  : option AuthorEmail.t :=
  match Article.author_emails a with
  | Some es =>
      List.find (fun e => String.eqb (AuthorEmail.name e) (AuthorLink.name author)) es
  | None => None
  end.

Definition render_author_cell (a : Article.t) (author : AuthorLink.t) : author_cell :=
  match find_author_email a author with
  | Some authorEmail =>
      if AuthorEmail.has_email authorEmail
         && negb (AuthorEmail.is_pdf_fallback authorEmail)
      then EmailShown (default "" (AuthorEmail.email authorEmail))
                      (AuthorEmail.email_source authorEmail)
      else if AuthorEmail.is_pdf_fallback authorEmail then PdfExtracted
      else NoneShown (AuthorEmail.email_source authorEmail)
  | None =>
      match Article.author_emails a with
      | Some _ => NoneShown "not_extracted"
      | None => Nothing
      end
  end.

Definition pdfFallbackEmails (a : Article.t) : list AuthorEmail.t :=
  List.filter AuthorEmail.is_pdf_fallback (default [] (Article.author_emails a)).

(** The entries of the PDF list: one per distinct [email] value, the
    first entry that carries it. *)
Definition uniquePdfFallbackEmails (a : Article.t) : list AuthorEmail.t :=
  omap (fun email =>
          List.find (fun e => bool_decide (AuthorEmail.email e = email))
                    (pdfFallbackEmails a))
       (set_from (map AuthorEmail.email (pdfFallbackEmails a))).

(** *** The list of articles *)

(** [filterYear && ...]: [null] and [0] switch the year filter off. *)
Definition year_filter_active (filterYear : option Z) : bool :=
  match filterYear with
  | Some y => negb (y =? 0)
  | None => false
  end.

(** The predicate of [filteredArticles]. *)
Definition keeps (filterYear : option Z) (filterMinCitations : Z)
  (article : Article.t) : bool :=
  if year_filter_active filterYear
     && negb (bool_decide (Article.year article = filterYear))
  then false
  else if Article.citations article <? filterMinCitations then false
  else true.

(** [filteredArticles], from [search.articles] (which may be absent). *)
Definition filteredArticles (filterYear : option Z) (filterMinCitations : Z)
  (articles : option (list Article.t)) : list Article.t :=
  List.filter (keeps filterYear filterMinCitations) (default [] articles).

(** [.filter(Boolean)] on the years: [undefined] and [0] are dropped. *)
Definition truthy_year (y : option Z) : option Z :=
  match y with
  | Some v => if v =? 0 then None else Some v
  | None => None
  end.

(** [.sort((a, b) => b - a)]: the comparator orders numbers from the
    largest down, and the values sorted are distinct, so the outcome
    does not depend on the engine's algorithm; an insertion sort gives
    it. *)
Fixpoint insert_desc (y : Z) (l : list Z) : list Z :=
  match l with
  | [] => [y]
  | x :: l' => if x <? y then y :: l else x :: insert_desc y l'
  end.

Definition sort_desc (l : list Z) : list Z := fold_right insert_desc [] l.

(** [yearOptions] *)
Definition yearOptions (articles : option (list Article.t)) : list Z :=
  sort_desc
    (set_from (omap (fun a => truthy_year (Article.year a)) (default [] articles))).

(** The two numbers of "Showing n of m articles". *)
Definition showing (filterYear : option Z) (filterMinCitations : Z)
  (articles : option (list Article.t)) : nat * nat :=
  (length (filteredArticles filterYear filterMinCitations articles),
   length (default [] articles)).

(** The label of the per-article button: [extractingEmails.has(id)]. *)
Definition extract_button_busy (pg : page) (a : Article.t) : bool :=
  bool_decide (Article.id a ∈ extractingEmails pg).

Definition is_extract_request (r : request) : bool :=
  match r with PostExtractAuthorEmails _ => true | _ => false end.

Definition is_extract_toast (t : toast) : bool :=
  match t with ExtractDone _ _ | ExtractFailed _ => true | _ => false end.

End ResultsPage.

(** ** PDFExtractionProgress *)

Module PDFExtractionProgress.

Inductive step_status := pending | in_progress | completed | failed.

Record PDFExtractionStep := {
  id : string;
  title : string;
  status : step_status;
  description : option string
}.

Record result := {
  success : bool;
  message : string
}.

Record state := {
  steps : list PDFExtractionStep;
  currentStep : nat;
  isExtracting : bool;
  extractionResult : option result
}.

Definition mk_step (i t d : string) : PDFExtractionStep :=
  {| id := i; title := t; status := pending; description := Some d |}.

Definition initial : state := {|
  steps := [
    mk_step "start" "开始PDF邮箱提取" "初始化PDF邮箱提取过程";
    mk_step "get_pdf_links" "获取PDF链接" "从Google Scholar获取论文PDF链接";
    mk_step "download_pdf" "下载PDF文件" "下载论文PDF文件";
    mk_step "extract_text" "提取PDF文本" "从PDF第一页提取文本内容";
    mk_step "find_emails" "查找邮箱地址" "在PDF文本中查找作者邮箱";
    mk_step "match_authors" "匹配作者邮箱" "将找到的邮箱与作者姓名匹配";
    mk_step "complete" "完成提取" "保存提取结果" ];
  currentStep := 0%nat;
  isExtracting := true;
  extractionResult := None
|}.

Definition with_status (s : step_status) (st : PDFExtractionStep) : PDFExtractionStep :=
  {| id := id st; title := title st; status := s; description := description st |}.

Inductive effect :=
| Wait (ms : Z).

(** One turn of the loop of [simulateProgress], for index [i]. *)
Definition turn (i : nat) (st : state) : state :=
  {| steps := imap (fun idx step =>
                      if (idx <? i)%nat then with_status completed step
                      else if (idx =? i)%nat then with_status in_progress step
                      else step) (steps st);
     currentStep := i;
     isExtracting := isExtracting st;
     extractionResult := extractionResult st |}.

(** The loop from index [i], [n] turns left; [extra i] is the value of
    [Math.random() * 3000] drawn in turn [i]. *)
Fixpoint turns (extra : nat -> Z) (i n : nat) (st : state) : state * list effect :=
  match n with
  | O => (st, [])
  | S n' =>
      let '(st', effs) := turns extra (S i) n' (turn i st) in
      (st', Wait (2000 + extra i) :: effs)
  end.






(** The dialog in the middle of the simulation, while it waits in turn
    number [k] of the loop (the first turn is number 1). *)
Definition after_turns (extra : nat -> Z) (k : nat) (st : state) : state :=
  fst (turns extra 0 k st).

End PDFExtractionProgress.

(** ** EmailSender *)

Module EmailSender.

Record props := {
  isOpen : bool;
  authorEmail : string;
  authorName : string;
  paperTitle : string;
  paperVenue : option string;
  paperYear : option Z;
  paperCitations : option Z
}.

(** The bodies of [searchAPI.previewEmail] and [searchAPI.sendEmail]. *)
Module PreviewRequest.
Record t := {
  author_name : string;
  paper_title : string;
  paper_venue : option string;
  paper_year : option Z;
  paper_citations : option Z
}.
End PreviewRequest.

Module SendRequest.
Record t := {
  to_email : string;
  subject : string;
  author_name : string;
  paper_title : string;
  paper_venue : option string;
  paper_year : option Z;
  paper_citations : option Z
}.
End SendRequest.

Inductive effect :=
| ToastError (msg : string)
| PostEmailPreview (data : PreviewRequest.t)
| PostEmailSend (data : SendRequest.t).

Definition falsy (s : string) : bool := String.eqb s "".

(** [generatePreview], up to the request. *)
Definition generatePreview (p : props) : list effect :=
  if falsy (authorName p) || falsy (paperTitle p)
  then [ToastError "缺少必要信息"]
  else [PostEmailPreview {|
          PreviewRequest.author_name := authorName p;
          PreviewRequest.paper_title := paperTitle p;
          PreviewRequest.paper_venue := paperVenue p;
          PreviewRequest.paper_year := paperYear p;
          PreviewRequest.paper_citations := paperCitations p |}].

(** [sendEmail], up to the request; [subject] is the state of the
    subject field and [config_valid] is [emailConfig?.valid]. *)
Definition sendEmail (p : props) (subject : string) (config_valid : bool)
  : list effect :=
  if falsy (authorEmail p) || falsy subject || falsy (authorName p)
     || falsy (paperTitle p)
  then [ToastError "请填写完整信息"]
  else if negb config_valid
  then [ToastError "邮件配置无效，无法发送邮件"]
  else [PostEmailSend {|
          SendRequest.to_email := authorEmail p;
          SendRequest.subject := subject;
          SendRequest.author_name := authorName p;
          SendRequest.paper_title := paperTitle p;
          SendRequest.paper_venue := paperVenue p;
          SendRequest.paper_year := paperYear p;
          SendRequest.paper_citations := paperCitations p |}].

(** *** The state of the dialog and the handlers with their answers *)

(** The fields of the preview and of the configuration that the dialog
    reads. *)
Record EmailPreview := {
  preview_success : bool;
  html_content : string
}.

Record EmailConfig := {
  valid : bool;
  message : string
}.

Record SendResult := {
  success : bool;
  result_message : string
}.

Record state := {
  subject : string;
  preview : option EmailPreview;
  isLoadingPreview : bool;
  isSending : bool;
  showPreview : bool;
  emailConfig : option EmailConfig
}.

Inductive action :=
| Do (e : effect)
| ToastSuccess (msg : string)
| GetEmailConfig
| OnClose.

(** [emailConfig?.valid] *)
Definition config_valid (st : state) : bool :=
  match emailConfig st with
  | Some c => valid c
  | None => false
  end.

(** [checkEmailConfig]; [None]: the request throws. *)
Definition checkEmailConfig (st : state) (answer : option EmailConfig)
  : state * list action :=
  match answer with
  | Some config =>
      ({| subject := subject st; preview := preview st;
          isLoadingPreview := isLoadingPreview st; isSending := isSending st;
          showPreview := showPreview st; emailConfig := Some config |},
       GetEmailConfig ::
       (if valid config then []
        else [Do (ToastError ("邮件配置错误: " +:+ message config))]))
  | None =>
      ({| subject := subject st; preview := preview st;
          isLoadingPreview := isLoadingPreview st; isSending := isSending st;
          showPreview := showPreview st;
          emailConfig := Some {| valid := false; message := "配置检查失败" |} |},
       [GetEmailConfig; Do (ToastError "无法获取邮件配置")])
  end.

(** [generatePreview] with the answer to its request: the preview, or
    [None] when the request throws. *)
Definition run_generatePreview (p : props) (st : state)
  (answer : option EmailPreview) : state * list action :=
  match generatePreview p with
  | [PostEmailPreview r] =>
      match answer with
      | Some previewData =>
          ({| subject := subject st; preview := Some previewData;
              isLoadingPreview := false; isSending := isSending st;
              showPreview := true; emailConfig := emailConfig st |},
           [Do (PostEmailPreview r); ToastSuccess "邮件预览生成成功"])
      | None =>
          ({| subject := subject st; preview := preview st;
              isLoadingPreview := false; isSending := isSending st;
              showPreview := showPreview st; emailConfig := emailConfig st |},
           [Do (PostEmailPreview r); Do (ToastError "生成邮件预览失败")])
      end
  | stopped => (st, map Do stopped)
  end.

(** [sendEmail] with the answer to its request. *)
Definition run_sendEmail (p : props) (st : state) (answer : option SendResult)
  : state * list action :=
  match sendEmail p (subject st) (config_valid st) with
  | [PostEmailSend r] =>
      ({| subject := subject st; preview := preview st;
          isLoadingPreview := isLoadingPreview st; isSending := false;
          showPreview := showPreview st; emailConfig := emailConfig st |},
       Do (PostEmailSend r) ::
       match answer with
       | Some result =>
           if success result
           then [ToastSuccess ("邮件发送成功到 " +:+ authorEmail p); OnClose]
           else [Do (ToastError ("邮件发送失败: " +:+ result_message result))]
       | None => [Do (ToastError "邮件发送失败")]
       end)
  | stopped => (st, map Do stopped)
  end.

(** The [disabled] attribute of the two buttons. *)
Definition preview_disabled (p : props) (st : state) : bool :=
  isLoadingPreview st || falsy (authorName p) || falsy (paperTitle p).

Definition send_disabled (p : props) (st : state) : bool :=
  isSending st || falsy (authorEmail p) || falsy (subject st)
  || negb (config_valid st).

Definition click_preview (p : props) (st : state) (answer : option EmailPreview)
  : state * list action :=
  if preview_disabled p st then (st, []) else run_generatePreview p st answer.

Definition click_send (p : props) (st : state) (answer : option SendResult)
  : state * list action :=
  if send_disabled p st then (st, []) else run_sendEmail p st answer.

Definition is_send (a : action) : bool :=
  match a with Do (PostEmailSend _) => true | _ => false end.

(** The preview pane shows a document when [showPreview && preview]. *)
Definition preview_pane (st : state) : option string :=
  if showPreview st then
    match preview st with
    | Some pv => Some (html_content pv)
    | None => None
    end
  else None.

End EmailSender.

(** ** The back end, from its specification

    The server is not part of the sources at hand; the parts of it the
    properties below speak about are modelled from the specification. *)

(** *** Batch Dispatcher *)

Module BatchDispatcher.

(** Modelled from the spec: one recipient of a batch, the dispatcher
    being absent from the sources: the address, and the author and the
    paper of the entry it comes from. *)
Record recipient := {
  to : string;
  author : string;
  paper : string
}.

(** Modelled from the spec: the dispatcher is absent from the sources.
    "Recipient set = union of per-article AuthorEmail entries filtered
    by the two include flags, with null-email entries excluded and
    duplicate email addresses within the same batch collapsed to one
    send."  An entry counts as a fallback email when its source is
    [pdf_fallback], as a homepage email otherwise. *)
Definition selected (include_homepage_emails include_fallback_emails : bool)
  (e : AuthorEmail.t) : bool :=
  if AuthorEmail.is_pdf_fallback e then include_fallback_emails
  else include_homepage_emails.

(** Modelled from the spec: the selected entries of one article of the
    (absent) dispatcher's search, null emails left out. *)
Definition entries_of (ih ifb : bool) (a : Article.t) : list recipient :=
  flat_map
    (fun e =>
       match AuthorEmail.email e with
       | Some addr =>
           if selected ih ifb e
           then [{| to := addr; author := AuthorEmail.name e;
                    paper := Article.title a |}]
           else []
       | None => []
       end)
    (default [] (Article.author_emails a)).

(** Modelled from the spec: duplicates collapse to the first entry with
    an address, in the stable order (article order, then author order). *)
Definition collapse (l : list recipient) : list recipient :=
  Js.first_by to [] l.

(** Modelled from the spec: the recipient set of the absent
    dispatcher, the union over the articles, collapsed. *)
Definition recipient_set (ih ifb : bool) (articles : list Article.t) : list recipient :=
  collapse (flat_map (entries_of ih ifb) articles).

(** Modelled from the spec: the answers of the mail gateway, which is
    absent from the sources. *)
Inductive send_result := success | transient_error | permanent_error.

(** Modelled from the spec: the outcome of one recipient after the
    retries of the absent dispatcher. *)
Inductive delivery := Sent | Failed.

(** Modelled from the spec: the status of a [BatchJob] of the absent
    dispatcher. *)
Inductive job_status := running | completed | failed.

(** Modelled from the spec: the [BatchJob] record of the absent
    dispatcher. *)
Module BatchJob.
Record t := {
  search_id : Z;
  subject : string;
  include_homepage_emails : bool;
  include_fallback_emails : bool;
  status : job_status;
  total : Z;
  sent : Z;
  failed_count : Z
}.
End BatchJob.

(** Modelled from the spec: the running counters of a job of the
    absent dispatcher. *)
Record counters := {
  processed : Z;
  n_sent : Z;
  n_failed : Z
}.

Section Run.

(** Modelled from the spec: the mail gateway,
    [send(to, subject, html) -> success | transient_error |
    permanent_error]; the second argument numbers the attempts made for
    one recipient. *)
Variable gateway : string -> nat -> send_result.

(** Modelled from the spec: the attempt cap of the retry policy (a
    configuration value). *)
Variable attempt_cap : nat.

(** Modelled from the spec: "transient failure -> retry with bounded
    attempts; permanent failure or retries exhausted -> failed". *)
Fixpoint deliver (addr : string) (k left : nat) : delivery :=
  match left with
  | O => Failed
  | S left' =>
      match gateway addr k with
      | success => Sent
      | permanent_error => Failed
      | transient_error => deliver addr (S k) left'
      end
  end.

(** Modelled from the spec: one recipient.  A recipient already in the
    Contacted-Registry is skipped (neither sent nor failed); a sent one
    is recorded. *)
Definition process (reg : gset (string * string)) (c : counters) (r : recipient)
  : gset (string * string) * counters :=
  if decide ((to r, paper r) ∈ reg) then
    (reg, {| processed := processed c + 1; n_sent := n_sent c;
             n_failed := n_failed c |})
  else
    match deliver (to r) 0 attempt_cap with
    | Sent =>
        ({[ (to r, paper r) ]} ∪ reg,
         {| processed := processed c + 1; n_sent := n_sent c + 1;
            n_failed := n_failed c |})
    | Failed =>
        (reg, {| processed := processed c + 1; n_sent := n_sent c;
                 n_failed := n_failed c + 1 |})
    end.

(** Modelled from the spec: percent-complete,
    [processed / total * 100], rounded. *)
Definition percent (done all : Z) : Z := (200 * done + all) / (2 * all).

(** Modelled from the spec: the [status] word of a completion event of
    the absent dispatcher. *)
Definition status_word (s : job_status) : string :=
  match s with
  | running => "running" | completed => "completed" | failed => "failed"
  end.

(** Modelled from the spec: the progress event of the absent
    dispatcher, [{step, title, description, percent, total, sent,
    failed}], in the fields the views read. *)
Definition progress_event (all : Z) (c : counters) : ProgressData.t :=
  {| ProgressData.type := "progress";
     ProgressData.step := "sending";
     ProgressData.title := "sending";
     ProgressData.description := "";
     ProgressData.progress := Some (percent (processed c) all);
     ProgressData.total := Some all;
     ProgressData.sent := Some (n_sent c);
     ProgressData.failed := Some (n_failed c);
     ProgressData.status := None;
     ProgressData.result := None |}.

(** Modelled from the spec: the completion event of the absent
    dispatcher, [{status, result: {total, sent, failed}}]. *)
Definition completion_event (s : job_status) (all : Z) (c : counters)
  : ProgressData.t :=
  {| ProgressData.type := "completion";
     ProgressData.step := "completed";
     ProgressData.title := status_word s;
     ProgressData.description := "";
     ProgressData.progress := Some 100;
     ProgressData.total := Some all;
     ProgressData.sent := Some (n_sent c);
     ProgressData.failed := Some (n_failed c);
     ProgressData.status := Some (status_word s);
     ProgressData.result :=
       Some {| result_total := all; result_sent := n_sent c;
               result_failed := n_failed c |} |}.

(** Modelled from the spec: "After every recipient, emit a progress
    event with updated counters". *)
Fixpoint dispatch (all : Z) (reg : gset (string * string)) (c : counters)
  (rs : list recipient)
  : list ProgressData.t * counters * gset (string * string) :=
  match rs with
  | [] => ([], c, reg)
  | r :: rs' =>
      let '(reg', c') := process reg c r in
      let '(evs, cf, regf) := dispatch all reg' c' rs' in
      (progress_event all c' :: evs, cf, regf)
  end.

(** Modelled from the spec: what [startBatch] of the absent dispatcher
    comes to: a rejection, or a job with its event stream and the
    registry it leaves. *)
Inductive started :=
| SetupFailure
| Started (job : BatchJob.t) (events : list ProgressData.t)
          (registry : gset (string * string)).

(** Modelled from the spec: the counters of a job of the absent
    dispatcher before its first recipient. *)
Definition zero : counters := {| processed := 0; n_sent := 0; n_failed := 0 |}.

(** Modelled from the spec: [startBatch].  A request without include
    flags or with a misconfigured gateway is rejected before a job
    exists.  A job whose credentials the gateway refuses goes from
    running to failed before any send; otherwise every recipient is
    processed in order and one completion event closes the stream. *)
Definition startBatch (search : Z) (subject_line : string)
  (ih ifb gateway_configured credentials_accepted : bool)
  (articles : list Article.t) (reg : gset (string * string)) : started :=
  if (negb ih && negb ifb) || negb gateway_configured then SetupFailure
  else
    let rs := recipient_set ih ifb articles in
    let all := Z.of_nat (length rs) in
    if negb credentials_accepted then
      Started {| BatchJob.search_id := search;
                 BatchJob.subject := subject_line;
                 BatchJob.include_homepage_emails := ih;
                 BatchJob.include_fallback_emails := ifb;
                 BatchJob.status := failed;
                 BatchJob.total := all;
                 BatchJob.sent := 0;
                 BatchJob.failed_count := 0 |}
              [completion_event failed all zero] reg
    else
      let '(evs, c, reg') := dispatch all reg zero rs in
      Started {| BatchJob.search_id := search;
                 BatchJob.subject := subject_line;
                 BatchJob.include_homepage_emails := ih;
                 BatchJob.include_fallback_emails := ifb;
                 BatchJob.status := completed;
                 BatchJob.total := all;
                 BatchJob.sent := n_sent c;
                 BatchJob.failed_count := n_failed c |}
              (evs ++ [completion_event completed all c]) reg'.

End Run.

End BatchDispatcher.

(** *** Progress Channel *)

Module ProgressChannel.

Section Channel.

Variable gateway : string -> nat -> BatchDispatcher.send_result.
Variable attempt_cap : nat.


End Channel.


End ProgressChannel.

(** *** Extraction Worker *)

Module ExtractionWorker.

(** Modelled from the spec: the result contract of a source of the
    worker, which is absent from the sources: success, empty or error. *)
Inductive fetched (A : Type) :=
| found (x : A)
| empty
| error.
Arguments found {A} x.
Arguments empty {A}.
Arguments error {A}.

(** Modelled from the spec: the terminal states of an extraction by
    the absent worker. *)
Inductive terminal_state := done | failed.

(** Modelled from the spec: what [extract] of the absent worker comes
    to, [{emails, terminal_state}], or the network being unavailable. *)
Inductive extraction :=
| NetworkUnavailable
| Completed (emails : list AuthorEmail.t) (st : terminal_state).

Definition links (a : Article.t) : list AuthorLink.t :=
  default [] (Article.author_links a).

(** The article with its [AuthorEmail] set replaced as a whole. *)
Definition with_emails (a : Article.t) (es : option (list AuthorEmail.t)) : Article.t :=
  {| Article.id := Article.id a; Article.title := Article.title a;
     Article.authors := Article.authors a;
     Article.author_links := Article.author_links a;
     Article.author_emails := es;
     Article.pdf_fallback_emails := Article.pdf_fallback_emails a;
     Article.venue := Article.venue a; Article.publisher := Article.publisher a;
     Article.year := Article.year a; Article.citations := Article.citations a;
     Article.description := Article.description a; Article.url := Article.url a |}.

Section Worker.

(** Modelled from the spec: the worker is absent from the sources.  The
    homepage of an author and the full-text document of a paper are
    opaque extraction steps; the matcher is the best-effort classifier
    that attaches one of the document's addresses to an author. *)
Variable homepage : AuthorLink.t -> fetched string.
Variable document : Article.t -> fetched (list string).
Variable matcher : string -> list string -> option string.

(** Modelled from the spec: whether the homepage pass of the absent
    worker resolved an author. *)
Definition resolved_by_homepage (l : AuthorLink.t) : bool :=
  match homepage l with found _ => true | _ => false end.

(** Modelled from the spec: the document fallback is attempted once per
    article, and only when an author is still unresolved. *)
Definition fallback (a : Article.t) : fetched (list string) :=
  if forallb resolved_by_homepage (links a) then empty else document a.

(** Modelled from the spec: the addresses the fallback of the absent
    worker found, none when it was empty or failed. *)
Definition fallback_emails (a : Article.t) : list string :=
  match fallback a with found l => l | _ => [] end.

(** Modelled from the spec: "if email patterns are found, record
    source=homepage ... match discovered addresses to specific authors
    ... An author with no email from either path is recorded as
    {email: null, source: not_extracted} rather than omitted." *)
Definition entry_for (doc : list string) (l : AuthorLink.t) : AuthorEmail.t :=
  match homepage l with
  | found e =>
      {| AuthorEmail.name := AuthorLink.name l; AuthorEmail.email := Some e;
         AuthorEmail.email_source := "homepage";
         AuthorEmail.homepage := Some (AuthorLink.scholar_url l) |}
  | _ =>
      match matcher (AuthorLink.name l) doc with
      | Some e =>
          {| AuthorEmail.name := AuthorLink.name l; AuthorEmail.email := Some e;
             AuthorEmail.email_source := "pdf_fallback";
             AuthorEmail.homepage := None |}
      | None =>
          {| AuthorEmail.name := AuthorLink.name l; AuthorEmail.email := None;
             AuthorEmail.email_source := "not_extracted";
             AuthorEmail.homepage := None |}
      end
  end.

(** Modelled from the spec: the address the absent worker found for an
    author by either path. *)
Definition address_of (doc : list string) (l : AuthorLink.t) : option string :=
  match homepage l with
  | found e => Some e
  | _ => matcher (AuthorLink.name l) doc
  end.

(** Modelled from the spec: the addresses of the document that no
    author was matched with are paper-level fallback emails. *)
Definition residue (doc : list string) (ls : list AuthorLink.t) : list AuthorEmail.t :=
  map (fun e =>
         {| AuthorEmail.name := ""; AuthorEmail.email := Some e;
            AuthorEmail.email_source := "pdf_fallback";
            AuthorEmail.homepage := None |})
      (List.filter
         (fun e => negb (bool_decide (Some e ∈ map (address_of doc) ls)))
         doc).

(** Modelled from the spec: a source of the absent worker that
    errored. *)
Definition is_error {A} (f : fetched A) : bool :=
  match f with error => true | _ => false end.

(** Modelled from the spec: "only returns failed if every source
    errors (as opposed to returning empty)". *)
Definition state_of (a : Article.t) : terminal_state :=
  if forallb (fun l => is_error (homepage l)) (links a)
     && is_error (fallback a)
  then failed else done.

(** Modelled from the spec: [extract]; without the network the worker
    fails fast and fetches nothing. *)
Definition extract (network_available : bool) (a : Article.t) : extraction :=
  if negb network_available then NetworkUnavailable
  else
    let doc := fallback_emails a in
    Completed (map (entry_for doc) (links a) ++ residue doc (links a))
              (state_of a).

End Worker.

End ExtractionWorker.

(** ** SearchHistoryPage *)

Module SearchHistoryPage.

Record state := {
  history : list Article.t;
  loading : bool;
  saving : bool;
  error : option string;
  success : option string
}.

Definition initial : state := {|
  history := []; loading := true; saving := false;
  error := None; success := None
|}.

Inductive effect :=
| GetSearchHistoryFile
| UpdateSearchHistoryFile (articles : list Article.t).

(** [fetchHistory], run once when the page mounts.  The call
    [searchAPI.getSearchHistoryFile()] sits in a [try]: when the member
    is missing it throws before any request and the [catch] runs;
    otherwise the request leaves and [answer] is the file the server
    returns, or [None] when the request throws. *)
Definition fetchHistory (st : state) (answer : option (list Article.t))
  : state * list effect :=
  if SearchAPI.callable "getSearchHistoryFile" then
    (match answer with
     | Some data =>
         {| history := data; loading := false; saving := saving st;
            error := None; success := success st |}
     | None =>
         {| history := history st; loading := false; saving := saving st;
            error := Some "Failed to load search history.";
            success := success st |}
     end,
     [GetSearchHistoryFile])
  else
    ({| history := history st; loading := false; saving := saving st;
        error := Some "Failed to load search history.";
        success := success st |},
     []).

(** [handleDelete]: [article.title !== articleTitle]. *)
Definition handleDelete (articleTitle : string) (st : state) : state :=
  {| history :=
       List.filter
         (fun article => negb (String.eqb (Article.title article) articleTitle))
         (history st);
     loading := loading st; saving := saving st;
     error := error st; success := success st |}.

(** [handleSave].  The call [searchAPI.updateSearchHistoryFile(history)]
    sits in a [try]: when the member is missing it throws before any
    request and the [catch] runs; otherwise the request leaves and [ok]
    tells whether the update went through. *)
Definition handleSave (st : state) (ok : bool) : state * list effect :=
  if SearchAPI.callable "updateSearchHistoryFile" then
    (if ok then
       {| history := history st; loading := loading st; saving := false;
          error := None;
          success := Some "Search history updated successfully!" |}
     else
       {| history := history st; loading := loading st; saving := false;
          error := Some "Failed to save search history.";
          success := success st |},
     [UpdateSearchHistoryFile (history st)])
  else
    ({| history := history st; loading := loading st; saving := false;
        error := Some "Failed to save search history.";
        success := success st |},
     []).

Definition handleCloseSnackbar (st : state) : state :=
  {| history := history st; loading := loading st; saving := saving st;
     error := None; success := None |}.

(** What the page shows in place of the list. *)
Inductive body :=
| Spinner
| Rows (articles : list Article.t)
| EmptyMessage.

Definition render (st : state) : body :=
  if loading st then Spinner
  else match history st with
       | [] => EmptyMessage
       | _ => Rows (history st)
       end.

(** The delete button of the row of [article]. *)
Definition click_delete (article : Article.t) (st : state) : state :=
  handleDelete (Article.title article) st.

(** What the user can do on the page: click the delete button of the
    row at some position, click the save button (it is
    [disabled={saving}]), close a snackbar. *)
Inductive event :=
| ClickDeleteRow (index : nat)
| ClickSave (ok : bool)
| CloseSnackbar.

Definition step (st : state) (ev : event) : state * list effect :=
  match ev with
  | ClickDeleteRow index =>
      match history st !! index with
      | Some article => (click_delete article st, [])
      | None => (st, [])
      end
  | ClickSave ok => if saving st then (st, []) else handleSave st ok
  | CloseSnackbar => (handleCloseSnackbar st, [])
  end.

Fixpoint run (st : state) (evs : list event) : state * list effect :=
  match evs with
  | [] => (st, [])
  | ev :: evs' =>
      let '(st1, done1) := step st ev in
      let '(st2, done2) := run st1 evs' in
      (st2, done1 ++ done2)
  end.

End SearchHistoryPage.

(** ** ResultsPage: the dialogs it opens *)

Module ResultsPageDialogs.

Record selectedEmailData := {
  authorEmail : string;
  authorName : string;
  paperTitle : string;
  paperVenue : option string;
  paperYear : option Z;
  paperCitations : option Z
}.

Record state := {
  showEmailSender : bool;
  selected : option selectedEmailData;
  showBatchEmailSender : bool;
  showTopProgressBar : bool
}.

Definition initial : state := {|
  showEmailSender := false; selected := None;
  showBatchEmailSender := false; showTopProgressBar := false
|}.

(** [handleSendEmail] *)
Definition handleSendEmail (authorEmail authorName : string) (article : Article.t)
  (st : state) : state :=
  {| showEmailSender := true;
     selected := Some {| authorEmail := authorEmail;
                         authorName := authorName;
                         paperTitle := Article.title article;
                         paperVenue := Article.venue article;
                         paperYear := Article.year article;
                         paperCitations := Some (Article.citations article) |};
     showBatchEmailSender := showBatchEmailSender st;
     showTopProgressBar := showTopProgressBar st |}.

(** [handleCloseEmailSender] *)
Definition handleCloseEmailSender (st : state) : state :=
  {| showEmailSender := false; selected := None;
     showBatchEmailSender := showBatchEmailSender st;
     showTopProgressBar := showTopProgressBar st |}.

(** The [EmailSender] element: present when [selectedEmailData] is. *)
Definition email_sender (st : state) : option EmailSender.props :=
  match selected st with
  | Some d =>
      Some {| EmailSender.isOpen := showEmailSender st;
              EmailSender.authorEmail := authorEmail d;
              EmailSender.authorName := authorName d;
              EmailSender.paperTitle := paperTitle d;
              EmailSender.paperVenue := paperVenue d;
              EmailSender.paperYear := paperYear d;
              EmailSender.paperCitations := paperCitations d |}
  | None => None
  end.

(** The send button in the row of an author: it is there only next to
    an address that is shown, and passes that address. *)
Definition click_author_send (article : Article.t) (author : AuthorLink.t)
  (st : state) : state :=
  match ResultsPage.render_author_cell article author with
  | ResultsPage.EmailShown email _ =>
      handleSendEmail email (AuthorLink.name author) article st
  | _ => st
  end.

(** The batch button, the [onClose] of the batch dialog (which hands
    over to the top bar) and the [onClose] of the top bar. *)
Definition open_batch (st : state) : state :=
  {| showEmailSender := showEmailSender st; selected := selected st;
     showBatchEmailSender := true;
     showTopProgressBar := showTopProgressBar st |}.

Definition close_batch (st : state) : state :=
  {| showEmailSender := showEmailSender st; selected := selected st;
     showBatchEmailSender := false; showTopProgressBar := true |}.

Definition close_top_bar (st : state) : state :=
  {| showEmailSender := showEmailSender st; selected := selected st;
     showBatchEmailSender := showBatchEmailSender st;
     showTopProgressBar := false |}.

(** A click on the close (or cancel) button of the batch dialog. *)
Definition click_close_batch (dialog : BatchEmailSender.state) (st : state) : state :=
  if BatchEmailSender.close_disabled dialog then st else close_batch st.



End ResultsPageDialogs.

(** ** The shell scripts

    A script is embedded as a function from the exit statuses it tests
    ([true]: status 0) to the commands it runs, in order, and its own
    exit status.  Commands whose status the script ignores ([cd],
    [echo], [sleep]) do not steer it and are left out, but for the ones
    with a lasting effect. *)

Module TestInstallation.

Record statuses := {
  conda_found : bool;        (* command -v conda *)
  env_created : bool;        (* conda create -n scholar_test python=3.9 -y *)
  env_activated : bool;      (* conda activate scholar_test *)
  backend_installed : bool;  (* pip install -r requirements.txt *)
  frontend_installed : bool; (* npm install *)
  data_dir_made : bool       (* mkdir -p data *)
}.

Inductive command :=
| CondaCreate
| CondaActivate
| PipInstall
| NpmInstall
| MkdirData
| WriteEnv                   (* echo ... > .env ; echo ... >> .env *)
| CondaDeactivate
| SayFailed (msg : string)
| SayAllPassed.

(** [test_installation.sh] *)
Definition script (s : statuses) : list command * Z :=
  if negb (conda_found s) then
    ([SayFailed "Conda is not installed. Please install Miniconda or Anaconda first."], 1)
  else if negb (env_created s) then
    ([CondaCreate; SayFailed "Failed to create conda environment"], 1)
  else if negb (env_activated s) then
    ([CondaCreate; CondaActivate;
      SayFailed "Failed to activate conda environment"], 1)
  else if negb (backend_installed s) then
    ([CondaCreate; CondaActivate; PipInstall;
      SayFailed "Failed to install backend dependencies"; CondaDeactivate], 1)
  else if negb (frontend_installed s) then
    ([CondaCreate; CondaActivate; PipInstall; NpmInstall;
      SayFailed "Failed to install frontend dependencies"; CondaDeactivate], 1)
  else if negb (data_dir_made s) then
    ([CondaCreate; CondaActivate; PipInstall; NpmInstall; MkdirData;
      SayFailed "Failed to create data directory"; CondaDeactivate], 1)
  else
    ([CondaCreate; CondaActivate; PipInstall; NpmInstall; MkdirData;
      WriteEnv; SayAllPassed; CondaDeactivate], 0).

Definition all_passed (s : statuses) : bool :=
  conda_found s && env_created s && env_activated s && backend_installed s
  && frontend_installed s && data_dir_made s.

Definition is_failure (c : command) : bool :=
  match c with SayFailed _ => true | _ => false end.

End TestInstallation.

Module RunScript.

Record statuses := {
  env_activated : bool;        (* conda activate scholar *)
  backend_healthy : bool;      (* curl -s .../api/health | grep -q ... *)
  node_modules_present : bool  (* [ -d node_modules ] *)
}.

Inductive command :=
| FreePort (port : Z)          (* lsof -ti:port | xargs kill -9 *)
| CondaActivate
| StartBackend
| Sleep (seconds : Z)
| HealthCheck (port : Z)
| KillBackend
| NpmInstall
| StartFrontend
| WaitForJobs
| KillChildren.                (* pkill -P $$ *)

(** [run.sh], up to its final [wait]. *)
Definition script (s : statuses) : list command * Z :=
  if negb (env_activated s) then
    ([FreePort 8001; FreePort 5173; CondaActivate], 1)
  else if negb (backend_healthy s) then
    ([FreePort 8001; FreePort 5173; CondaActivate; StartBackend; Sleep 5;
      HealthCheck 8001; KillBackend], 1)
  else
    ([FreePort 8001; FreePort 5173; CondaActivate; StartBackend; Sleep 5;
      HealthCheck 8001]
     ++ (if node_modules_present s then [] else [NpmInstall])
     ++ [StartFrontend; WaitForJobs], 0).

(** [cleanup], the handler of SIGINT and SIGTERM. *)
Definition cleanup : list command * Z :=
  ([KillChildren; FreePort 8001; FreePort 5173], 0).

Definition freed (cs : list command) : list Z :=
  omap (fun c => match c with FreePort p => Some p | _ => None end) cs.

End RunScript.

(** ** Sample inputs *)

Module Sample.

Definition blank_search : SearchRequest :=
  {| keyword := Js.of_ascii_string "   "; num_results := 50;
     start_year := None; end_year := None; sort_by := "citations";
     filter_by_title := Some false; exclude_duplicates := Some false |}.

(** The batch dialog with both boxes unticked. *)
Definition unticked : BatchEmailSender.state :=
  {| BatchEmailSender.subject := Js.of_ascii_string "Hello";
     BatchEmailSender.includeAuthorEmails := false;
     BatchEmailSender.includePdfEmails := false;
     BatchEmailSender.isLoading := false;
     BatchEmailSender.progress := None;
     BatchEmailSender.isComplete := false |}.

(** A completion message: three of four mails went out. *)
Definition three_of_four : ProgressData.t :=
  {| ProgressData.type := "completion";
     ProgressData.step := "completed";
     ProgressData.title := "completed";
     ProgressData.description := "";
     ProgressData.progress := Some 100;
     ProgressData.total := Some 4;
     ProgressData.sent := Some 3;
     ProgressData.failed := Some 1;
     ProgressData.status := Some "completed";
     ProgressData.result :=
       Some {| result_total := 4; result_sent := 3; result_failed := 1 |} |}.


Definition proxy_disabled : ResultsPage.env :=
  {| ResultsPage.proxyStatus :=
       Some {| ProxyStatus.proxy_enabled := false;
               ProxyStatus.proxy_url := None;
               ProxyStatus.status := "disabled";
               ProxyStatus.message := None |};
     ResultsPage.extractEmailsMutation_isLoading := false;
     ResultsPage.extractAllEmailsMutation_isLoading := false |}.

Definition proxy_connected : ResultsPage.env :=
  {| ResultsPage.proxyStatus :=
       Some {| ProxyStatus.proxy_enabled := true;
               ProxyStatus.proxy_url := Some "http://127.0.0.1:7890";
               ProxyStatus.status := "connected";
               ProxyStatus.message := None |};
     ResultsPage.extractEmailsMutation_isLoading := false;
     ResultsPage.extractAllEmailsMutation_isLoading := false |}.

Definition ada : AuthorLink.t :=
  {| AuthorLink.name := "A Lovelace"; AuthorLink.scholar_url := "https://scholar.example/ada" |}.

Definition bob : AuthorLink.t :=
  {| AuthorLink.name := "B Babbage"; AuthorLink.scholar_url := "https://scholar.example/bob" |}.

(** An article whose emails were never extracted. *)
Definition paper : Article.t :=
  {| Article.id := Some 1; Article.title := "On Engines";
     Article.authors := Some "A Lovelace, B Babbage";
     Article.author_links := Some [ada; bob];
     Article.author_emails := None;
     Article.pdf_fallback_emails := None;
     Article.venue := None; Article.publisher := None;
     Article.year := Some 1843; Article.citations := 10;
     Article.description := None; Article.url := None |}.

(** The same article after an extraction: an address from the
    homepage, one from the document, and an author without any. *)
Definition extracted_paper : Article.t :=
  ExtractionWorker.with_emails paper
    (Some [ {| AuthorEmail.name := "A Lovelace";
               AuthorEmail.email := Some "ada@example.org";
               AuthorEmail.email_source := "homepage";
               AuthorEmail.homepage := Some "https://scholar.example/ada" |};
            {| AuthorEmail.name := "B Babbage";
               AuthorEmail.email := None;
               AuthorEmail.email_source := "not_extracted";
               AuthorEmail.homepage := None |};
            {| AuthorEmail.name := "";
               AuthorEmail.email := Some "engine@example.org";
               AuthorEmail.email_source := "pdf_fallback";
               AuthorEmail.homepage := None |};
            {| AuthorEmail.name := "";
               AuthorEmail.email := Some "ada@example.org";
               AuthorEmail.email_source := "pdf_fallback";
               AuthorEmail.homepage := None |} ]).

Definition dialog : EmailSender.props :=
  {| EmailSender.isOpen := true;
     EmailSender.authorEmail := "ada@example.org";
     EmailSender.authorName := "A Lovelace";
     EmailSender.paperTitle := "On Engines";
     EmailSender.paperVenue := None;
     EmailSender.paperYear := Some 1843;
     EmailSender.paperCitations := Some 10 |}.

(** A gateway and sources to run the back-end models on. *)
Definition gateway (addr : string) (attempt : nat) : BatchDispatcher.send_result :=
  match attempt with
  | O => BatchDispatcher.transient_error
  | _ => BatchDispatcher.success
  end.

Definition homepage (l : AuthorLink.t) : ExtractionWorker.fetched string :=
  if String.eqb (AuthorLink.name l) "A Lovelace"
  then ExtractionWorker.found "ada@example.org"
  else ExtractionWorker.empty.

Definition document (a : Article.t) : ExtractionWorker.fetched (list string) :=
  ExtractionWorker.found ["engine@example.org"].

Definition matcher (author : string) (candidates : list string) : option string :=
  None.

(** Two clicks on the extract button of [paper], then one on the
    extract-all button. *)
Definition clicks : list ResultsPage.event :=
  [ ResultsPage.ClickExtract proxy_connected paper;
    ResultsPage.ClickExtract proxy_connected paper;
    ResultsPage.ClickExtractAll proxy_connected 5 ].

(** A batch over the extracted article, nobody contacted before. *)
Definition batch : BatchDispatcher.started :=
  BatchDispatcher.startBatch gateway 3 5 "Hello" true true true true
    [extracted_paper] ∅.

(** The mail dialog with a subject typed and a configuration that
    checked out, and the same dialog for an author without a name. *)
Definition mail_ready : EmailSender.state :=
  {| EmailSender.subject := "Hello";
     EmailSender.preview := None;
     EmailSender.isLoadingPreview := false;
     EmailSender.isSending := false;
     EmailSender.showPreview := false;
     EmailSender.emailConfig :=
       Some {| EmailSender.valid := true; EmailSender.message := "ok" |} |}.

Definition nameless_dialog : EmailSender.props :=
  {| EmailSender.isOpen := true;
     EmailSender.authorEmail := "ada@example.org";
     EmailSender.authorName := "";
     EmailSender.paperTitle := "On Engines";
     EmailSender.paperVenue := None;
     EmailSender.paperYear := Some 1843;
     EmailSender.paperCitations := Some 10 |}.

End Sample.

(** * Properties *)

Section JsTrim.

Import Js.

Lemma trimStart_blank s : blank s = true -> trimStart s = [].
Proof.
  induction s as [|c s IH]; simpl; [done|].
  intros [Hc Hs]%andb_prop. rewrite Hc. auto.
Qed.

Lemma trimStart_nil_blank s : trimStart s = [] -> blank s = true.
Proof.
  induction s as [|c s IH]; simpl; [done|].
  destruct (is_white_space c); [auto | discriminate].
Qed.

Lemma trimStart_head s c r :
  trimStart s = c :: r -> is_white_space c = false.
Proof.
  induction s as [|d s IH]; simpl; [discriminate|].
  destruct (is_white_space d) eqn:Hd; [auto|].
  intros [= -> _]. exact Hd.
Qed.

Lemma blank_app s t : blank (s ++ t) = blank s && blank t.
Proof. apply forallb_app. Qed.

Lemma blank_rev s : blank (rev s) = blank s.
Proof.
  induction s as [|c s IH]; simpl; [done|].
  rewrite blank_app, IH. simpl. rewrite andb_true_r. apply andb_comm.
Qed.

(** What is left after stripping the front is blank only if empty. *)
Lemma trimStart_blank_nil s : blank (trimStart s) = true -> trimStart s = [].
Proof.
  destruct (trimStart s) as [|c r] eqn:E; [done|].
  apply trimStart_head in E. simpl. rewrite E. discriminate.
Qed.

Lemma trim_nil_iff s : trim s = [] <-> blank s = true.
Proof.
  unfold trim, trimEnd. split.
  - intros H. apply (f_equal (@rev _)) in H. rewrite rev_involutive in H.
    simpl in H. apply trimStart_nil_blank in H. rewrite blank_rev in H.
    apply trimStart_blank_nil in H. by apply trimStart_nil_blank.
  - intros H. rewrite (trimStart_blank _ H). reflexivity.
Qed.

Lemma truthy_trim s : truthy (trim s) = negb (blank s).
Proof.
  destruct (blank s) eqn:B.
  - apply trim_nil_iff in B. by rewrite B.
  - destruct (trim s) eqn:T; [|done].
    apply trim_nil_iff in T. congruence.
Qed.

End JsTrim.

(** C9: submitting the search form with a keyword that is empty or all
  white space shows the error message and never invokes the search;
  with any other keyword the search is invoked once, with exactly the
  form data, and no error is shown. *)
Theorem handleSubmit_blank_keyword_gate (formData : SearchRequest) :
(Js.blank (keyword formData) = true ->
   SearchPage.handleSubmit formData =
     [SearchPage.PreventDefault;
      SearchPage.ToastError "Please enter a search keyword"]
   /\ List.filter SearchPage.is_search (SearchPage.handleSubmit formData) = [])
/\ (Js.blank (keyword formData) = false ->
   SearchPage.handleSubmit formData =
     [SearchPage.PreventDefault; SearchPage.SearchMutate formData]).
Proof.
unfold SearchPage.handleSubmit. rewrite truthy_trim, negb_involutive.
split; intros ->; auto.
Qed.

Lemma handleSubmit_blank_keyword_gate_witness :
  SearchPage.handleSubmit Sample.blank_search
  = [SearchPage.PreventDefault;
     SearchPage.ToastError "Please enter a search keyword"]
  /\ List.filter SearchPage.is_search (SearchPage.handleSubmit Sample.blank_search) = [].
Proof.
  apply (proj1 (handleSubmit_blank_keyword_gate Sample.blank_search)).
  reflexivity.
Defined.

(** ** The batch dialog *)

(** C1: when neither kind of address is included, [handleBatchSend]
    stops at an alert: the state is untouched (no run is started), no
    POST to the batch-send endpoint is among its effects whatever the
    server would have answered, and the start button is disabled, so a
    click does nothing at all. *)
Theorem batch_send_without_flags_rejected
  (searchId : Z) (st : BatchEmailSender.state)
  (answer : BatchEmailSender.fetch_outcome) :
  BatchEmailSender.includeAuthorEmails st = false ->
  BatchEmailSender.includePdfEmails st = false ->
  (exists msg, BatchEmailSender.handleBatchSend searchId st answer
               = (st, [BatchEmailSender.Alert msg]))
  /\ List.filter BatchEmailSender.is_post
       (snd (BatchEmailSender.handleBatchSend searchId st answer)) = []
  /\ BatchEmailSender.start_button_disabled st = true
  /\ BatchEmailSender.click_start searchId st answer = (st, []).
Proof.
  intros Ha Hp.
  unfold BatchEmailSender.click_start, BatchEmailSender.start_button,
    BatchEmailSender.start_button_disabled, BatchEmailSender.handleBatchSend.
  rewrite Ha, Hp. simpl.
  rewrite !orb_true_r.
  destruct (negb (Js.truthy (Js.trim (BatchEmailSender.subject st)))); simpl;
    (repeat split; [eexists; reflexivity | reflexivity.. | ]);
    destruct (negb (BatchEmailSender.isComplete st)); reflexivity.
Qed.

Lemma batch_send_without_flags_rejected_witness :
  (exists msg, BatchEmailSender.handleBatchSend 7 Sample.unticked
                 BatchEmailSender.ResponseOk
               = (Sample.unticked, [BatchEmailSender.Alert msg]))
  /\ List.filter BatchEmailSender.is_post
       (snd (BatchEmailSender.handleBatchSend 7 Sample.unticked
               BatchEmailSender.ResponseOk)) = []
  /\ BatchEmailSender.start_button_disabled Sample.unticked = true
  /\ BatchEmailSender.click_start 7 Sample.unticked BatchEmailSender.ResponseOk
     = (Sample.unticked, []).
Proof.
  apply (batch_send_without_flags_rejected 7 Sample.unticked
           BatchEmailSender.ResponseOk); reflexivity.
Defined.

(** C10: in both batch views the success rate is rendered, and its
    division evaluated, only when a result is present with [sent > 0]
    (with [sent <= 0] the line is not there); the operands are the
    result's [sent] and [total]; and if moreover [sent <= total], then
    [total >= 1]: the divisor is not zero. *)
Theorem success_rate_well_defined :
  (forall (st : BatchEmailSender.state) (d : division),
      BatchEmailSender.completion_rate st = Some d ->
      exists data r,
        BatchEmailSender.progress st = Some data
        /\ ProgressData.result data = Some r
        /\ dividend d = result_sent r /\ divisor d = result_total r
        /\ 0 < result_sent r
        /\ (result_sent r <= result_total r ->
            1 <= result_total r /\ divisor d <> 0))
  /\ (forall (st : BatchEmailSender.state) data r,
      BatchEmailSender.progress st = Some data ->
      ProgressData.result data = Some r ->
      result_sent r <= 0 ->
      BatchEmailSender.completion_rate st = None)
  /\ (forall (st : TopProgressBar.state) (d : division),
      TopProgressBar.completion_rate st = Some d ->
      exists data r,
        TopProgressBar.progress st = Some data
        /\ ProgressData.result data = Some r
        /\ dividend d = result_sent r /\ divisor d = result_total r
        /\ 0 < result_sent r
        /\ (result_sent r <= result_total r ->
            1 <= result_total r /\ divisor d <> 0))
  /\ (forall (st : TopProgressBar.state) data r,
      TopProgressBar.progress st = Some data ->
      ProgressData.result data = Some r ->
      result_sent r <= 0 ->
      TopProgressBar.completion_rate st = None).
Proof.
  assert (G : forall b p d,
             success_rate_line b p = Some d ->
             exists data r,
               p = Some data /\ ProgressData.result data = Some r
               /\ dividend d = result_sent r /\ divisor d = result_total r
               /\ 0 < result_sent r
               /\ (result_sent r <= result_total r ->
                   1 <= result_total r /\ divisor d <> 0)).
  { intros b p d. unfold success_rate_line.
    destruct b; [|discriminate].
    destruct p as [data|]; [|discriminate].
    destruct (ProgressData.result data) as [r|] eqn:Er; [|discriminate].
    destruct (0 <? result_sent r) eqn:Hs; [|discriminate].
    apply Z.ltb_lt in Hs. intros [= <-]. simpl.
    exists data, r. repeat split; auto; lia. }
  assert (N : forall b data r,
             ProgressData.result data = Some r -> result_sent r <= 0 ->
             success_rate_line b (Some data) = None).
  { intros b data r Hr Hs. unfold success_rate_line. rewrite Hr.
    apply Z.ltb_ge in Hs. rewrite Hs. by destruct b. }
  split; [|split; [|split]].
  - intros st d. apply G.
  - intros st data r Hp Hr Hs. unfold BatchEmailSender.completion_rate.
    rewrite Hp. by apply (N _ data r).
  - intros st d. apply G.
  - intros st data r Hp Hr Hs. unfold TopProgressBar.completion_rate.
    rewrite Hp. by apply (N _ data r).
Qed.

Lemma success_rate_well_defined_witness :
  BatchEmailSender.completion_rate
    (BatchEmailSender.onmessage BatchEmailSender.initial
       (Some Sample.three_of_four))
  = Some {| dividend := 3; divisor := 4 |}
  /\ 1 <= 4.
Proof.
  split; [reflexivity|].
  destruct (proj1 success_rate_well_defined
              (BatchEmailSender.onmessage BatchEmailSender.initial
                 (Some Sample.three_of_four))
              {| dividend := 3; divisor := 4 |} eq_refl)
    as (data & r & Hd & Hr & _ & _ & _ & H).
  injection Hd as <-. injection Hr as <-.
  apply H. simpl. lia.
Defined.

(** ** The results page *)

Section Extraction.

Import ResultsPage.

Lemma remove_first_elem (k x : option Z) (l : list (option Z)) :
  x ∈ remove_first k l -> x ∈ l.
Proof.
  induction l as [|y l IH]; simpl; [done|].
  destruct (decide (y = k)).
  - intros. apply elem_of_cons. by right.
  - rewrite !elem_of_cons. intros [->|H]; auto.
Qed.

Lemma remove_first_NoDup (k : option Z) (l : list (option Z)) :
  NoDup l -> NoDup (remove_first k l) /\ k ∉ remove_first k l.
Proof.
  induction 1 as [|y l Hy Hl IH]; simpl.
  - split; [constructor | apply not_elem_of_nil].
  - destruct (decide (y = k)) as [->|Hne].
    + split; assumption.
    + destruct IH as [IH1 IH2]. split.
      * constructor; [|assumption].
        intros Hin. apply Hy. by eapply remove_first_elem.
      * rewrite elem_of_cons. intros [Heq|Hin]; [congruence | contradiction].
Qed.

Lemma in_flight_once_initial : in_flight_once initial.
Proof.
  split; simpl; [constructor|]. intros k Hk. by apply not_elem_of_nil in Hk.
Qed.

Lemma in_flight_once_step (pg : page) (ev : event) :
  in_flight_once pg -> in_flight_once (step pg ev).
Proof.
  intros [Hnd Hsub]. destruct ev as [e a|e sid|k ans|ans]; simpl.
  - destruct (extract_button_rendered a); simpl; [|by split].
    unfold extract_button_disabled.
    destruct (bool_decide (Article.id a ∈ extractingEmails pg)) eqn:Hin;
      simpl; [by split|].
    destruct (extractEmailsMutation_isLoading e || not_connected e);
      simpl; [by split|].
    apply bool_decide_eq_false in Hin.
    split; simpl.
    + constructor; [|assumption]. intros Hp. apply Hin. by apply Hsub.
    + intros k. rewrite elem_of_cons. intros [->|Hk]; [set_solver|].
      apply Hsub in Hk. set_solver.
  - destruct (negb (extract_all_disabled e)); by split.
  - destruct (bool_decide (k ∈ pending pg)); [|by split].
    destruct (remove_first_NoDup k _ Hnd) as [Hnd' Hk].
    split; simpl; [assumption|].
    intros x Hx.
    assert (x <> k) by (intros ->; contradiction).
    apply remove_first_elem in Hx. apply Hsub in Hx. set_solver.
  - by split.
Qed.

Lemma in_flight_once_fold (evs : list event) (pg : page) :
  in_flight_once pg -> in_flight_once (fold_left step evs pg).
Proof.
  revert pg. induction evs as [|ev evs IH]; simpl; [done|].
  intros pg H. apply IH. by apply in_flight_once_step.
Qed.

End Extraction.

(** C2: in every state the page can reach, the single-article
    extraction requests that are in flight are for pairwise distinct
    articles and each of them is in [extractingEmails]; and whenever an
    article's id is in that set (in particular while its request is in
    flight) its extract button is disabled and a click on it issues
    nothing. *)
Theorem one_extraction_in_flight_per_article (evs : list ResultsPage.event) :
  NoDup (ResultsPage.pending (ResultsPage.run evs))
  /\ (forall k, k ∈ ResultsPage.pending (ResultsPage.run evs) ->
                k ∈ ResultsPage.extractingEmails (ResultsPage.run evs))
  /\ (forall (e : ResultsPage.env) (a : Article.t),
        Article.id a ∈ ResultsPage.extractingEmails (ResultsPage.run evs) ->
        ResultsPage.extract_button_disabled (ResultsPage.run evs) e a = true
        /\ ResultsPage.step (ResultsPage.run evs) (ResultsPage.ClickExtract e a)
           = ResultsPage.run evs).
Proof.
  destruct (in_flight_once_fold evs ResultsPage.initial in_flight_once_initial)
    as [Hnd Hsub].
  fold (ResultsPage.run evs) in Hnd, Hsub.
  repeat split; [assumption | assumption | |].
  - unfold ResultsPage.extract_button_disabled.
    by rewrite bool_decide_eq_true_2.
  - simpl. unfold ResultsPage.extract_button_disabled.
    rewrite bool_decide_eq_true_2 by assumption. simpl.
    by rewrite andb_false_r.
Qed.

Lemma one_extraction_in_flight_per_article_witness :
  ResultsPage.requests (ResultsPage.run Sample.clicks)
  = [ResultsPage.PostExtractAllAuthorEmails 5;
     ResultsPage.PostExtractAuthorEmails (Some 1)]
  /\ ResultsPage.pending (ResultsPage.run Sample.clicks) = [Some 1]
  /\ NoDup (ResultsPage.pending (ResultsPage.run Sample.clicks))
  /\ ResultsPage.step (ResultsPage.run Sample.clicks)
       (ResultsPage.ClickExtract Sample.proxy_connected Sample.paper)
     = ResultsPage.run Sample.clicks.
Proof.
  destruct (one_extraction_in_flight_per_article Sample.clicks)
    as (Hnd & Hsub & Hdis).
  split; [vm_compute; reflexivity|].
  split; [vm_compute; reflexivity|].
  split; [exact Hnd|].
  apply Hdis. apply Hsub. vm_compute. apply list_elem_of_here.
Defined.

(** C3: with no proxy data or a proxy status other than [connected],
    both extraction buttons are disabled, a click on either leaves the
    page as it is (no request, no toast), and the buttons carry the
    proxy notice as their title; the banner, when there is one, names
    the proxy as not enabled or as failed.  An extraction that found
    nothing is reported otherwise: by the toast of a finished
    extraction with both counts at zero. *)
Theorem extraction_gated_on_proxy
  (pg : ResultsPage.page) (e : ResultsPage.env) (a : Article.t) (searchId : Z) :
  (forall p, ResultsPage.proxyStatus e = Some p ->
             ProxyStatus.status p <> "connected") ->
  ResultsPage.extract_all_disabled e = true
  /\ ResultsPage.extract_button_disabled pg e a = true
  /\ ResultsPage.step pg (ResultsPage.ClickExtractAll e searchId) = pg
  /\ ResultsPage.step pg (ResultsPage.ClickExtract e a) = pg
  /\ ResultsPage.extract_title e = "需要代理连接才能提取邮箱"
  /\ (forall label, ResultsPage.proxy_banner e = Some label ->
                    label = "未启用" \/ label = "连接失败")
  /\ (forall k, ResultsPage.toasts
                  (ResultsPage.settle_extract pg k (ResultsPage.Extracted (Some [])))
                = ResultsPage.ExtractDone 0 0 :: ResultsPage.toasts pg).
Proof.
  intros Hne.
  assert (Hnc : ResultsPage.not_connected e = true).
  { unfold ResultsPage.not_connected.
    destruct (ResultsPage.proxyStatus e) as [p|] eqn:Ep; [|done].
    apply negb_true_iff, String.eqb_neq. by apply Hne. }
  unfold ResultsPage.extract_all_disabled, ResultsPage.extract_button_disabled,
    ResultsPage.extract_title. simpl.
  unfold ResultsPage.extract_all_disabled, ResultsPage.extract_button_disabled.
  rewrite Hnc, !orb_true_r. simpl. rewrite andb_false_r.
  do 5 (split; [reflexivity|]). split; [|reflexivity].
  intros label. unfold ResultsPage.proxy_banner.
  destruct (ResultsPage.proxyStatus e) as [p|] eqn:Ep; [|discriminate].
  specialize (Hne p eq_refl). apply String.eqb_neq in Hne. rewrite Hne.
  destruct (String.eqb (ProxyStatus.status p) "disabled"); intros [= <-]; auto.
Qed.

Lemma extraction_gated_on_proxy_witness :
  ResultsPage.extract_all_disabled Sample.proxy_disabled = true
  /\ ResultsPage.extract_button_disabled ResultsPage.initial
       Sample.proxy_disabled Sample.paper = true
  /\ ResultsPage.step ResultsPage.initial
       (ResultsPage.ClickExtractAll Sample.proxy_disabled 5)
     = ResultsPage.initial
  /\ ResultsPage.step ResultsPage.initial
       (ResultsPage.ClickExtract Sample.proxy_disabled Sample.paper)
     = ResultsPage.initial
  /\ ResultsPage.extract_title Sample.proxy_disabled = "需要代理连接才能提取邮箱"
  /\ (forall label, ResultsPage.proxy_banner Sample.proxy_disabled = Some label ->
                    label = "未启用" \/ label = "连接失败")
  /\ (forall k, ResultsPage.toasts
                  (ResultsPage.settle_extract ResultsPage.initial k
                     (ResultsPage.Extracted (Some [])))
                = ResultsPage.ExtractDone 0 0 :: ResultsPage.toasts ResultsPage.initial).
Proof.
  apply (extraction_gated_on_proxy ResultsPage.initial Sample.proxy_disabled
           Sample.paper 5).
  intros p [= <-]. simpl. discriminate.
Defined.

(** ** First occurrences *)

Section FirstBy.

Context {A K : Type} `{EqDecision K} (key : A -> K).

Lemma first_by_sub (seen : list K) (l : list A) (x : A) :
  In x (Js.first_by key seen l) -> In x l /\ key x ∉ seen.
Proof.
  revert seen. induction l as [|y l IH]; simpl; intros seen; [tauto|].
  destruct (decide (key y ∈ seen)) as [Hy|Hy].
  - intros H. apply IH in H. tauto.
  - intros [<-|H]; [tauto|].
    apply IH in H. destruct H as [H1 H2]. split; [tauto|].
    intros Hs. apply H2. apply elem_of_cons. by right.
Qed.

Lemma first_by_keys (seen : list K) (l : list A) (k : K) :
  In k (map key (Js.first_by key seen l)) <-> In k (map key l) /\ k ∉ seen.
Proof.
  revert seen. induction l as [|y l IH]; simpl; intros seen; [tauto|].
  destruct (decide (key y ∈ seen)) as [Hy|Hy]; simpl.
  - rewrite IH. split; [tauto|].
    intros [[Heq|H] Hk]; [subst; contradiction | tauto].
  - rewrite IH. rewrite elem_of_cons. split.
    + intros [Heq|[H1 H2]]; [subst; tauto | tauto].
    + intros [[Heq|H] Hk]; [tauto|].
      destruct (decide (key y = k)) as [->|Hne]; [tauto|].
      right. split; [assumption|]. intros [Hc|Hc]; congruence.
Qed.

Lemma first_by_NoDup (seen : list K) (l : list A) :
  NoDup (map key (Js.first_by key seen l)).
Proof.
  revert seen. induction l as [|y l IH]; simpl; intros seen; [constructor|].
  destruct (decide (key y ∈ seen)) as [Hy|Hy]; simpl; [apply IH|].
  constructor; [|apply IH].
  rewrite list_elem_of_In, first_by_keys. intros [_ H]. apply H.
  apply elem_of_cons. by left.
Qed.

End FirstBy.

Section PdfList.

Import ResultsPage.

(** Looking an [email] value of the list up again finds an entry that
    carries it. *)
Lemma find_by_email (l : list AuthorEmail.t) (keys : list (option string)) :
  (forall k, In k keys -> In k (map AuthorEmail.email l)) ->
  map AuthorEmail.email
    (omap (fun email =>
             List.find (fun e => bool_decide (AuthorEmail.email e = email)) l)
          keys) = keys.
Proof.
  induction keys as [|k keys IH]; simpl; intros Hk; [done|].
  destruct (List.find (fun e => bool_decide (AuthorEmail.email e = k)) l)
    as [e|] eqn:Hf.
  - apply find_some in Hf. destruct Hf as [_ He].
    apply bool_decide_eq_true in He. simpl. rewrite He. f_equal.
    apply IH. intros; apply Hk; auto.
  - exfalso.
    assert (Hin : In k (map AuthorEmail.email l)) by (apply Hk; by left).
    apply in_map_iff in Hin. destruct Hin as (e & He & Hin).
    apply (find_none _ _ Hf) in Hin. simpl in Hin.
    apply bool_decide_eq_false in Hin. contradiction.
Qed.

End PdfList.

(** C6: the recipient set of a batch holds every address once; an
    address is in it exactly when some article of the search has an
    entry with that address (so not a null one) that the include flags
    select.  And the PDF list shown for an article holds each [email]
    value of its fallback entries exactly once. *)
Theorem recipients_collapsed_and_pdf_list_unique
  (include_homepage_emails include_fallback_emails : bool)
  (articles : list Article.t) (a : Article.t) :
  NoDup (map BatchDispatcher.to
           (BatchDispatcher.recipient_set include_homepage_emails
              include_fallback_emails articles))
  /\ (forall addr,
        In addr (map BatchDispatcher.to
                   (BatchDispatcher.recipient_set include_homepage_emails
                      include_fallback_emails articles))
        <-> exists art e,
              In art articles
              /\ In e (default [] (Article.author_emails art))
              /\ AuthorEmail.email e = Some addr
              /\ BatchDispatcher.selected include_homepage_emails
                   include_fallback_emails e = true)
  /\ NoDup (map AuthorEmail.email (ResultsPage.uniquePdfFallbackEmails a))
  /\ (forall x,
        In x (map AuthorEmail.email (ResultsPage.uniquePdfFallbackEmails a))
        <-> In x (map AuthorEmail.email (ResultsPage.pdfFallbackEmails a))).
Proof.
  assert (Hu : map AuthorEmail.email (ResultsPage.uniquePdfFallbackEmails a)
               = ResultsPage.set_from
                   (map AuthorEmail.email (ResultsPage.pdfFallbackEmails a))).
  { unfold ResultsPage.uniquePdfFallbackEmails. apply find_by_email.
    intros k Hk. unfold ResultsPage.set_from in Hk.
    apply (first_by_sub (fun x => x)) in Hk. tauto. }
  unfold BatchDispatcher.recipient_set, BatchDispatcher.collapse.
  split; [apply first_by_NoDup|].
  split.
  - intros addr. rewrite first_by_keys. split.
    + intros [H _]. apply in_map_iff in H. destruct H as (r & <- & Hr).
      apply in_flat_map in Hr. destruct Hr as (art & Hart & Hr).
      unfold BatchDispatcher.entries_of in Hr.
      apply in_flat_map in Hr. destruct Hr as (e & He & Hr).
      exists art, e.
      destruct (AuthorEmail.email e) as [x|] eqn:Ex; [|destruct Hr].
      destruct (BatchDispatcher.selected _ _ e) eqn:Es; [|destruct Hr].
      destruct Hr as [<-|[]]. simpl. auto.
    + intros (art & e & Hart & He & Hm & Hs).
      split; [|apply not_elem_of_nil].
      apply in_map_iff.
      exists {| BatchDispatcher.to := addr;
                BatchDispatcher.author := AuthorEmail.name e;
                BatchDispatcher.paper := Article.title art |}.
      split; [reflexivity|].
      apply in_flat_map. exists art. split; [assumption|].
      unfold BatchDispatcher.entries_of. apply in_flat_map.
      exists e. split; [assumption|]. rewrite Hm, Hs. by left.
  - rewrite Hu. unfold ResultsPage.set_from. split.
    + pose proof (first_by_NoDup (fun x : option string => x) []
                    (map AuthorEmail.email (ResultsPage.pdfFallbackEmails a))) as H.
      by rewrite map_id in H.
    + intros x.
      pose proof (first_by_keys (fun x : option string => x) []
                    (map AuthorEmail.email (ResultsPage.pdfFallbackEmails a)) x) as H.
      rewrite !map_id in H. rewrite H. split; [tauto|].
      intros Hx. split; [assumption | apply not_elem_of_nil].
Qed.

(** ** The event stream of a batch *)

Section Stream.

Import BatchDispatcher.

Variable gateway : string -> nat -> send_result.
Variable attempt_cap : nat.

Lemma process_processed reg c r :
  processed (snd (process gateway attempt_cap reg c r)) = processed c + 1.
Proof.
  unfold process. destruct (decide _); [reflexivity|].
  destruct (deliver _ _ _ _); reflexivity.
Qed.

(** One progress event per recipient, numbered by the recipients
    processed so far. *)
Lemma dispatch_events all reg c rs :
  let evs := fst (fst (dispatch gateway attempt_cap all reg c rs)) in
  Forall (fun d => ProgressData.type d = "progress") evs
  /\ map ProgressData.progress evs
     = map (fun i => Some (percent (processed c + Z.of_nat i) all))
           (seq 1 (length rs)).
Proof.
  revert reg c. induction rs as [|r rs IH]; intros reg c; simpl.
  - split; constructor.
  - pose proof (process_processed reg c r) as Hp.
    destruct (process gateway attempt_cap reg c r) as [reg' c'].
    simpl in Hp. specialize (IH reg' c').
    destruct (dispatch gateway attempt_cap all reg' c' rs) as [[evs cf] regf].
    simpl in *. destruct IH as [IH1 IH2]. split.
    + constructor; [reflexivity | assumption].
    + rewrite IH2, Hp. f_equal.
      rewrite <- (seq_shift (length rs) 1), map_map.
      apply map_ext. intros i. do 2 f_equal. lia.
Qed.

End Stream.

Section Observers.

Lemma dialog_progress_only (st : BatchEmailSender.state) (l : list ProgressData.t) :
  Forall (fun d => ProgressData.type d = "progress") l ->
  BatchEmailSender.isComplete (BatchEmailSender.observe st l)
  = BatchEmailSender.isComplete st.
Proof.
  unfold BatchEmailSender.observe.
  intros H. revert st. induction H as [|d l Hd _ IH]; intros st; simpl; [done|].
  rewrite IH, Hd. reflexivity.
Qed.

Lemma bar_progress_only (st : TopProgressBar.state) (l : list ProgressData.t) :
  Forall (fun d => ProgressData.type d = "progress") l ->
  TopProgressBar.isComplete (TopProgressBar.observe st l)
  = TopProgressBar.isComplete st.
Proof.
  unfold TopProgressBar.observe.
  intros H. revert st. induction H as [|d l Hd _ IH]; intros st; simpl; [done|].
  rewrite IH, Hd. reflexivity.
Qed.

(** A stream split before its end stops inside the progress events. *)
Lemma proper_prefix (pre l1 l2 : list ProgressData.t) (last : ProgressData.t) :
  pre ++ [last] = l1 ++ l2 -> l2 <> [] -> exists l2', pre = l1 ++ l2'.
Proof.
  intros Heq Hne.
  destruct l2 as [|x l2 _] using rev_ind; [done|].
  rewrite app_assoc in Heq. apply app_inj_tail in Heq.
  destruct Heq as [-> _]. eauto.
Qed.

End Observers.

(** C4: the events of one batch job are a run of progress events, in
    the order of the recipients processed, closed by one completion
    event that carries the final counters of the job.  An observer that
    was not complete before is complete exactly when it has received the
    whole stream: once it saw the completion event, no event of the
    batch is left to come. *)
Theorem completion_event_last_and_once
  (gateway : string -> nat -> BatchDispatcher.send_result) (attempt_cap : nat)
  (search : Z) (subject : string)
  (ih ifb gateway_configured credentials_accepted : bool)
  (articles : list Article.t) (reg reg' : gset (string * string))
  (job : BatchDispatcher.BatchJob.t) (events : list ProgressData.t) :
  BatchDispatcher.startBatch gateway attempt_cap search subject ih ifb
    gateway_configured credentials_accepted articles reg
  = BatchDispatcher.Started job events reg' ->
  exists pre last,
    events = pre ++ [last]
    /\ Forall (fun d => ProgressData.type d = "progress") pre
    /\ ProgressData.type last = "completion"
    /\ ProgressData.result last
       = Some {| result_total := BatchDispatcher.BatchJob.total job;
                 result_sent := BatchDispatcher.BatchJob.sent job;
                 result_failed := BatchDispatcher.BatchJob.failed_count job |}
    /\ (credentials_accepted = true ->
        map ProgressData.progress pre
        = map (fun i => Some (BatchDispatcher.percent (Z.of_nat i)
                                (BatchDispatcher.BatchJob.total job)))
              (seq 1 (length (BatchDispatcher.recipient_set ih ifb articles))))
    /\ (forall (st : BatchEmailSender.state) (l1 l2 : list ProgressData.t),
          BatchEmailSender.isComplete st = false ->
          events = l1 ++ l2 ->
          (BatchEmailSender.isComplete (BatchEmailSender.observe st l1) = true
           <-> l2 = []))
    /\ (forall (st : TopProgressBar.state) (l1 l2 : list ProgressData.t),
          TopProgressBar.isComplete st = false ->
          events = l1 ++ l2 ->
          (TopProgressBar.isComplete (TopProgressBar.observe st l1) = true
           <-> l2 = []))
    /\ (forall st : BatchEmailSender.state,
          BatchEmailSender.isLoading (BatchEmailSender.observe st events) = false
          /\ BatchEmailSender.progress (BatchEmailSender.observe st events)
             = Some last)
    /\ (forall st : TopProgressBar.state,
          snd (TopProgressBar.onmessage st (Some last))
          = [TopProgressBar.SetTimeoutOnClose 5000]).
Proof.
  unfold BatchDispatcher.startBatch.
  destruct (negb ih && negb ifb || negb gateway_configured); [discriminate|].
  set (rs := BatchDispatcher.recipient_set ih ifb articles).
  set (all := Z.of_nat (length rs)).
  assert (G : forall pre last,
    Forall (fun d => ProgressData.type d = "progress") pre ->
    ProgressData.type last = "completion" ->
    (forall (st : BatchEmailSender.state) l1 l2,
        BatchEmailSender.isComplete st = false ->
        pre ++ [last] = l1 ++ l2 ->
        (BatchEmailSender.isComplete (BatchEmailSender.observe st l1) = true
         <-> l2 = []))
    /\ (forall (st : TopProgressBar.state) l1 l2,
        TopProgressBar.isComplete st = false ->
        pre ++ [last] = l1 ++ l2 ->
        (TopProgressBar.isComplete (TopProgressBar.observe st l1) = true
         <-> l2 = []))
    /\ (forall st : BatchEmailSender.state,
          BatchEmailSender.isLoading (BatchEmailSender.observe st (pre ++ [last]))
          = false
          /\ BatchEmailSender.progress
               (BatchEmailSender.observe st (pre ++ [last])) = Some last)
    /\ (forall st : TopProgressBar.state,
          snd (TopProgressBar.onmessage st (Some last))
          = [TopProgressBar.SetTimeoutOnClose 5000])).
  { intros pre last Hpre Hlast.
    split; [|split; [|split]]; [| |
      intros st; unfold BatchEmailSender.observe;
      rewrite fold_left_app; simpl; by rewrite Hlast
    | intros st; simpl; by rewrite Hlast ];
    intros st l1 l2 Hst Heq; split.
    - intros Hc. destruct l2 as [|x l2]; [done|]. exfalso.
      destruct (proper_prefix pre l1 (x :: l2) last Heq) as [l2' ->]; [done|].
      apply Forall_app in Hpre. destruct Hpre as [H1 _].
      rewrite (dialog_progress_only st l1 H1), Hst in Hc. discriminate.
    - intros ->. rewrite app_nil_r in Heq. subst l1.
      unfold BatchEmailSender.observe. rewrite fold_left_app. simpl.
      by rewrite Hlast.
    - intros Hc. destruct l2 as [|x l2]; [done|]. exfalso.
      destruct (proper_prefix pre l1 (x :: l2) last Heq) as [l2' ->]; [done|].
      apply Forall_app in Hpre. destruct Hpre as [H1 _].
      rewrite (bar_progress_only st l1 H1), Hst in Hc. discriminate.
    - intros ->. rewrite app_nil_r in Heq. subst l1.
      unfold TopProgressBar.observe. rewrite fold_left_app. simpl.
      by rewrite Hlast. }
  destruct credentials_accepted; simpl.
  - pose proof (dispatch_events gateway attempt_cap all reg
                  BatchDispatcher.zero rs) as [Hev Hord].
    destruct (BatchDispatcher.dispatch gateway attempt_cap all reg
                BatchDispatcher.zero rs) as [[evs c] regf].
    simpl in Hev, Hord. intros [= <- <- <-].
    exists evs, (BatchDispatcher.completion_event BatchDispatcher.completed all c).
    do 4 (split; [done|]). split; [|by apply (G evs)].
    intros _. exact Hord.
  - intros [= <- <- <-].
    exists [], (BatchDispatcher.completion_event BatchDispatcher.failed all
                  BatchDispatcher.zero).
    do 4 (split; [done|]). split; [discriminate|]. by apply (G []).
Qed.

Lemma completion_event_last_and_once_witness :
  exists job events reg',
    Sample.batch = BatchDispatcher.Started job events reg'
    /\ length events = 3%nat
    /\ exists pre last,
         events = pre ++ [last]
         /\ Forall (fun d => ProgressData.type d = "progress") pre
         /\ ProgressData.type last = "completion".
Proof.
  assert (E : exists job events reg',
             Sample.batch = BatchDispatcher.Started job events reg'
             /\ length events = 3%nat).
  { vm_compute. do 3 eexists. split; reflexivity. }
  destruct E as (job & events & reg' & E & Hlen).
  exists job, events, reg'. do 2 (split; [assumption|]).
  destruct (completion_event_last_and_once _ _ _ _ _ _ _ _ _ _ _ _ _ E)
    as (pre & last & H1 & H2 & H3 & _).
  exists pre, last. auto.
Defined.

(** ** Extraction results *)

Section Worker.

Import ExtractionWorker.

Variable homepage : AuthorLink.t -> fetched string.
Variable document : Article.t -> fetched (list string).
Variable matcher : string -> list string -> option string.

Lemma entry_for_name doc l :
  AuthorEmail.name (entry_for homepage matcher doc l) = AuthorLink.name l.
Proof.
  unfold entry_for.
  destruct (homepage l); [reflexivity| |];
    destruct (matcher _ _); reflexivity.
Qed.

Lemma entry_for_null doc l :
  AuthorEmail.email (entry_for homepage matcher doc l) = None ->
  entry_for homepage matcher doc l
  = {| AuthorEmail.name := AuthorLink.name l; AuthorEmail.email := None;
       AuthorEmail.email_source := "not_extracted";
       AuthorEmail.homepage := None |}
  /\ address_of homepage matcher doc l = None.
Proof.
  unfold entry_for, address_of.
  destruct (homepage l); [discriminate| |];
    destruct (matcher _ _); (discriminate || auto).
Qed.

Lemma entry_for_unresolved doc l :
  address_of homepage matcher doc l = None ->
  entry_for homepage matcher doc l
  = {| AuthorEmail.name := AuthorLink.name l; AuthorEmail.email := None;
       AuthorEmail.email_source := "not_extracted";
       AuthorEmail.homepage := None |}.
Proof.
  unfold entry_for, address_of.
  destruct (homepage l); [discriminate| |]; intros ->; reflexivity.
Qed.

(** A null entry of a completed extraction says [not_extracted]. *)
Lemma null_entries doc ls e :
  In e (map (entry_for homepage matcher doc) ls ++ residue homepage matcher doc ls) ->
  AuthorEmail.email e = None ->
  AuthorEmail.email_source e = "not_extracted".
Proof.
  intros Hin He. apply in_app_or in Hin. destruct Hin as [Hin|Hin].
  - apply in_map_iff in Hin. destruct Hin as (l & <- & _).
    apply entry_for_null in He. destruct He as [-> _]. reflexivity.
  - unfold residue in Hin. apply in_map_iff in Hin.
    destruct Hin as (x & <- & _). discriminate.
Qed.

End Worker.

Lemma find_finds {A} (p : A -> bool) (l : list A) (x : A) :
  In x l -> p x = true -> exists y, List.find p l = Some y /\ In y l /\ p y = true.
Proof.
  intros Hin Hp. destruct (List.find p l) as [y|] eqn:Hf.
  - exists y. apply find_some in Hf. tauto.
  - apply (find_none _ _ Hf) in Hin. congruence.
Qed.

(** C7: after a completed extraction every author of the article has an
    entry under their name in the set, so the page finds one for each
    author; an author for whom neither source gave an address is
    recorded with a null email and the source [not_extracted]; the page
    shows such an entry as "None (not_extracted)", while for an article
    that was never attempted it shows nothing for the author. *)
Theorem every_author_has_an_entry
  (homepage : AuthorLink.t -> ExtractionWorker.fetched string)
  (document : Article.t -> ExtractionWorker.fetched (list string))
  (matcher : string -> list string -> option string)
  (a : Article.t) (emails : list AuthorEmail.t)
  (st : ExtractionWorker.terminal_state) (l : AuthorLink.t) :
  ExtractionWorker.extract homepage document matcher true a
  = ExtractionWorker.Completed emails st ->
  In l (ExtractionWorker.links a) ->
  (exists e,
      ResultsPage.find_author_email
        (ExtractionWorker.with_emails a (Some emails)) l = Some e
      /\ In e emails
      /\ AuthorEmail.name e = AuthorLink.name l
      /\ (AuthorEmail.email e = None ->
          AuthorEmail.email_source e = "not_extracted"
          /\ ResultsPage.render_author_cell
               (ExtractionWorker.with_emails a (Some emails)) l
             = ResultsPage.NoneShown "not_extracted"))
  /\ (ExtractionWorker.address_of homepage matcher
        (ExtractionWorker.fallback_emails homepage document a) l = None ->
      In {| AuthorEmail.name := AuthorLink.name l; AuthorEmail.email := None;
            AuthorEmail.email_source := "not_extracted";
            AuthorEmail.homepage := None |} emails)
  /\ ResultsPage.render_author_cell (ExtractionWorker.with_emails a None) l
     = ResultsPage.Nothing.
Proof.
  unfold ExtractionWorker.extract. simpl. intros [= <- _] Hl.
  set (doc := ExtractionWorker.fallback_emails homepage document a).
  set (emails := _ ++ _).
  assert (Hin : In (ExtractionWorker.entry_for homepage matcher doc l) emails).
  { apply in_or_app. left. by apply in_map. }
  split; [|split].
  - destruct (find_finds
                (fun e => String.eqb (AuthorEmail.name e) (AuthorLink.name l))
                emails _ Hin) as (e & Hf & He & Hn).
    { rewrite entry_for_name. apply String.eqb_refl. }
    apply String.eqb_eq in Hn.
    exists e. unfold ResultsPage.render_author_cell,
      ResultsPage.find_author_email. simpl. rewrite Hf.
    do 3 (split; [done|]).
    intros Hnull.
    pose proof (null_entries homepage matcher doc _ e He Hnull) as Hs.
    split; [assumption|].
    unfold AuthorEmail.has_email, AuthorEmail.is_pdf_fallback.
    rewrite Hnull, Hs. reflexivity.
  - intros Hnone. rewrite <- (entry_for_unresolved homepage matcher doc l Hnone).
    assumption.
  - reflexivity.
Qed.

Lemma every_author_has_an_entry_witness :
  exists emails st,
    ExtractionWorker.extract Sample.homepage Sample.document Sample.matcher
      true Sample.paper = ExtractionWorker.Completed emails st
    /\ In {| AuthorEmail.name := "B Babbage"; AuthorEmail.email := None;
             AuthorEmail.email_source := "not_extracted";
             AuthorEmail.homepage := None |} emails
    /\ ResultsPage.render_author_cell
         (ExtractionWorker.with_emails Sample.paper None) Sample.bob
       = ResultsPage.Nothing.
Proof.
  do 2 eexists. split; [reflexivity|].
  destruct (every_author_has_an_entry Sample.homepage Sample.document
              Sample.matcher Sample.paper _ _ Sample.bob eq_refl)
    as (_ & Hrec & Hnever).
  - right. left. reflexivity.
  - split; [|exact Hnever]. apply Hrec. reflexivity.
Defined.

(** ** Where the displayed progress comes from *)


Section Views.





End Views.

Section Frames.

Import TopProgressBar.

Lemma onframe_hold (v : view) (f : frame) :
  shown (fst (onframe v f)) = hold f (shown v)
  /\ complete (fst (onframe v f)) = complete v || completes f
  /\ snd (onframe v f)
     = if completes f then [SetTimeoutOnClose 5000] else [].
Proof.
  destruct f as [| |b|d]; simpl; rewrite ?orb_false_r; try done.
  unfold is_completion.
  destruct (String.eqb (ProgressData.type d) "completion"); simpl;
    rewrite ?orb_true_r, ?orb_false_r; done.
Qed.

Lemma hold_parsed (f : frame) (h h' : held) :
  parses f = true -> hold f h = hold f h'.
Proof. by destruct f. Qed.

End Frames.

Section Channel.

Import BatchDispatcher.

Variable gateway : string -> nat -> send_result.
Variable attempt_cap : nat.




End Channel.

Section Joined.


End Joined.



(** * Further properties of the components *)

(** ** The results page: requests in flight *)

Section ExtractionTraces.

Import ResultsPage.

Lemma remove_first_length (k : option Z) (l : list (option Z)) :
  k ∈ l -> S (length (remove_first k l)) = length l.
Proof.
  induction l as [|y l IH]; simpl.
  - intros H. by apply not_elem_of_nil in H.
  - destruct (decide (y = k)) as [->|Hne]; [done|].
    rewrite elem_of_cons. intros [Heq|Hin]; [congruence|].
    simpl. by rewrite IH.
Qed.

Lemma remove_first_keeps (k x : option Z) (l : list (option Z)) :
  x <> k -> x ∈ l -> x ∈ remove_first k l.
Proof.
  intros Hne. induction l as [|y l IH]; simpl; [done|].
  rewrite elem_of_cons. destruct (decide (y = k)) as [->|Hy].
  - intros [Heq|Hin]; [congruence | assumption].
  - rewrite elem_of_cons. intros [Heq|Hin]; auto.
Qed.

(** The set and the pending requests hold the same ids, and what was
    posted is pending or has been answered by a toast. *)
Lemma page_accounts (evs : list event) (pg : page) :
  (NoDup (pending pg)
   /\ (forall k, k ∈ extractingEmails pg <-> k ∈ pending pg)
   /\ length (List.filter is_extract_request (requests pg))
      = (length (pending pg)
         + length (List.filter is_extract_toast (toasts pg)))%nat) ->
  NoDup (pending (fold_left step evs pg))
  /\ (forall k, k ∈ extractingEmails (fold_left step evs pg)
                <-> k ∈ pending (fold_left step evs pg))
  /\ length (List.filter is_extract_request (requests (fold_left step evs pg)))
     = (length (pending (fold_left step evs pg))
        + length (List.filter is_extract_toast
                    (toasts (fold_left step evs pg))))%nat.
Proof.
  revert pg. induction evs as [|ev evs IH]; simpl; [done|].
  intros pg (Hnd & Hset & Hcount). apply IH. clear IH.
  destruct ev as [e a|e sid|k ans|ans]; simpl.
  - destruct (extract_button_rendered a); simpl; [|done].
    unfold extract_button_disabled.
    destruct (bool_decide (Article.id a ∈ extractingEmails pg)) eqn:Hin;
      simpl; [done|].
    destruct (extractEmailsMutation_isLoading e || not_connected e);
      simpl; [done|].
    apply bool_decide_eq_false in Hin.
    split; [|split].
    + constructor; [|assumption]. intros Hp. apply Hin. by apply Hset.
    + intros k. rewrite elem_of_union, elem_of_singleton, elem_of_cons, Hset.
      tauto.
    + by rewrite Hcount.
  - destruct (negb (extract_all_disabled e)); simpl; done.
  - destruct (bool_decide (k ∈ pending pg)) eqn:Hk; [|done].
    apply bool_decide_eq_true in Hk.
    destruct (remove_first_NoDup k _ Hnd) as [Hnd' Hk'].
    split; [assumption|]. split; simpl.
    + intros x. rewrite elem_of_difference, elem_of_singleton, Hset. split.
      * intros [Hx Hne]. by apply remove_first_keeps.
      * intros Hx. split; [by eapply remove_first_elem|].
        intros ->. contradiction.
    + rewrite Hcount, <- (remove_first_length k (pending pg) Hk).
      destruct ans; simpl; lia.
  - destruct ans; simpl; done.
Qed.

Lemma page_accounts_initial :
  NoDup (pending initial)
  /\ (forall k, k ∈ extractingEmails initial <-> k ∈ pending initial)
  /\ length (List.filter is_extract_request (requests initial))
     = (length (pending initial)
        + length (List.filter is_extract_toast (toasts initial)))%nat.
Proof.
  simpl. split; [constructor|]. split; [|reflexivity].
  intros k. rewrite elem_of_empty, elem_of_nil. tauto.
Qed.

End ExtractionTraces.

(** X1: in every state the page can reach, [extractingEmails] holds
    exactly the ids whose single-article request is in flight: a button
    reads "extracting" exactly while its request is out, and when
    nothing is pending the set is empty. *)
Theorem extracting_set_is_the_pending_requests (evs : list ResultsPage.event) :
  (forall a : Article.t,
      ResultsPage.extract_button_busy (ResultsPage.run evs) a = true
      <-> Article.id a ∈ ResultsPage.pending (ResultsPage.run evs))
  /\ (ResultsPage.pending (ResultsPage.run evs) = [] ->
      ResultsPage.extractingEmails (ResultsPage.run evs) = ∅).
Proof.
  destruct (page_accounts evs ResultsPage.initial page_accounts_initial)
    as (_ & Hset & _).
  fold (ResultsPage.run evs) in Hset. split.
  - intros a. unfold ResultsPage.extract_button_busy.
    rewrite bool_decide_eq_true. apply Hset.
  - intros Hp. apply set_eq. intros k.
    rewrite Hset, Hp, elem_of_nil, elem_of_empty. tauto.
Qed.

(** X2: every single-article extraction request the page has posted is
    either still pending or has been answered by exactly one toast
    (done or failed): posted = pending + toasts. *)
Theorem extraction_requests_are_accounted_for (evs : list ResultsPage.event) :
  length (List.filter ResultsPage.is_extract_request
            (ResultsPage.requests (ResultsPage.run evs)))
  = (length (ResultsPage.pending (ResultsPage.run evs))
     + length (List.filter ResultsPage.is_extract_toast
                 (ResultsPage.toasts (ResultsPage.run evs))))%nat.
Proof.
  destruct (page_accounts evs ResultsPage.initial page_accounts_initial)
    as (_ & _ & H).
  exact H.
Qed.

(** ** The results page: the list, its filters and its counts *)

Section Filters.

Import ResultsPage.

Lemma filter_sublist {A} (p : A -> bool) (l : list A) :
  sublist (List.filter p l) l.
Proof.
  induction l as [|x l IH]; simpl; [constructor|].
  destruct (p x); by constructor.
Qed.

Lemma filter_all {A} (p : A -> bool) (l : list A) :
  (forall x, In x l -> p x = true) -> List.filter p l = l.
Proof.
  induction l as [|x l IH]; simpl; intros H; [done|].
  rewrite (H x) by auto. f_equal. apply IH. auto.
Qed.

Lemma filter_none {A} (p : A -> bool) (l : list A) :
  (forall x, In x l -> p x = false) -> List.filter p l = [].
Proof.
  induction l as [|x l IH]; simpl; intros H; [done|].
  rewrite (H x) by auto. apply IH. auto.
Qed.

Lemma filter_filter {A} (p q : A -> bool) (l : list A) :
  List.filter p (List.filter q l) = List.filter (fun x => q x && p x) l.
Proof.
  induction l as [|x l IH]; simpl; [done|].
  destruct (q x); simpl; [destruct (p x)|]; by rewrite IH.
Qed.

Lemma keeps_raise (fy : option Z) (m m' : Z) (a : Article.t) :
  m <= m' ->
  keeps fy m' a = keeps fy m a && negb (Article.citations a <? m').
Proof.
  intros Hm. unfold keeps.
  destruct (year_filter_active fy && _); [reflexivity|].
  destruct (Article.citations a <? m') eqn:H1;
    destruct (Article.citations a <? m) eqn:H2; try reflexivity.
  apply Z.ltb_lt in H2. apply Z.ltb_ge in H1. lia.
Qed.

Lemma insert_desc_In (y z : Z) (l : list Z) :
  In z (insert_desc y l) <-> z = y \/ In z l.
Proof.
  induction l as [|x l IH]; simpl; [intuition|].
  destruct (x <? y); simpl; [intuition|]. rewrite IH. intuition.
Qed.

Lemma sort_desc_In (z : Z) (l : list Z) : In z (sort_desc l) <-> In z l.
Proof.
  induction l as [|x l IH]; simpl; [tauto|].
  rewrite insert_desc_In, IH. intuition.
Qed.

Lemma insert_desc_sorted (y : Z) (l : list Z) :
  StronglySorted (fun a b => b < a) l -> ~ In y l ->
  StronglySorted (fun a b => b < a) (insert_desc y l).
Proof.
  induction 1 as [|x l Hs IH Hx]; simpl; intros Hy.
  - repeat constructor.
  - destruct (x <? y) eqn:Hxy.
    + apply Z.ltb_lt in Hxy. constructor; [by constructor|].
      constructor; [assumption|].
      rewrite List.Forall_forall in Hx |- *. intros b Hb.
      specialize (Hx b Hb). simpl in Hx. lia.
    + apply Z.ltb_ge in Hxy. constructor; [apply IH; tauto|].
      rewrite List.Forall_forall in Hx |- *. intros b Hb.
      apply insert_desc_In in Hb. destruct Hb as [->|Hb]; [|by apply Hx].
      assert (x <> y) by tauto. lia.
Qed.

Lemma sort_desc_sorted (l : list Z) :
  NoDup l -> StronglySorted (fun a b => b < a) (sort_desc l).
Proof.
  induction 1 as [|x l Hx Hl IH]; simpl; [constructor|].
  apply insert_desc_sorted; [assumption|].
  rewrite sort_desc_In. by rewrite <- list_elem_of_In.
Qed.

Lemma first_by_length {A K} `{EqDecision K} (key : A -> K) (seen : list K)
  (l : list A) :
  (length (Js.first_by key seen l) <= length l)%nat.
Proof.
  revert seen. induction l as [|x l IH]; simpl; intros seen; [done|].
  destruct (decide _); simpl.
  - specialize (IH seen). lia.
  - specialize (IH (key x :: seen)). lia.
Qed.

End Filters.

(** X3: the list shown is a sub-list of the articles of the search, in
    their order, so "Showing n of m" always has [n <= m]; raising the
    citation threshold only removes articles; and with the year filter
    off (no year, or year 0) and a threshold no article is below,
    nothing is hidden. *)
Theorem filtered_articles_only_shrink
  (filterYear : option Z) (m m' : Z) (articles : option (list Article.t)) :
  sublist (ResultsPage.filteredArticles filterYear m articles)
          (default [] articles)
  /\ (fst (ResultsPage.showing filterYear m articles)
      <= snd (ResultsPage.showing filterYear m articles))%nat
  /\ (m <= m' ->
      sublist (ResultsPage.filteredArticles filterYear m' articles)
              (ResultsPage.filteredArticles filterYear m articles))
  /\ (ResultsPage.year_filter_active filterYear = false ->
      (forall a, In a (default [] articles) -> m <= Article.citations a) ->
      ResultsPage.filteredArticles filterYear m articles = default [] articles).
Proof.
  unfold ResultsPage.showing, ResultsPage.filteredArticles. simpl.
  split; [apply filter_sublist|].
  split; [apply sublist_length, filter_sublist|].
  split.
  - intros Hm.
    rewrite (filter_ext _ _ (fun a => keeps_raise filterYear m m' a Hm)).
    rewrite <- filter_filter. apply filter_sublist.
  - intros Hy Hc. apply filter_all. intros a Ha.
    unfold ResultsPage.keeps. rewrite Hy. simpl.
    specialize (Hc a Ha). apply Z.ltb_ge in Hc. by rewrite Hc.
Qed.

Lemma filtered_articles_only_shrink_witness :
  ResultsPage.filteredArticles (Some 0) 5 (Some [Sample.paper; Sample.extracted_paper])
  = [Sample.paper; Sample.extracted_paper].
Proof.
  apply (filtered_articles_only_shrink (Some 0) 5 5
           (Some [Sample.paper; Sample.extracted_paper])).
  - reflexivity.
  - intros a [<-|[<-|[]]]; simpl; lia.
Defined.

(** X4: the years offered by the filter are strictly descending (so
    each once), never 0, and are exactly the years of the articles of
    the search; picking any of them, with a citation threshold no
    article is below, leaves a non-empty list of articles of exactly
    that year. *)
Theorem year_options_are_the_years
  (articles : option (list Article.t)) (m : Z) :
  StronglySorted (fun a b => b < a) (ResultsPage.yearOptions articles)
  /\ (forall y, In y (ResultsPage.yearOptions articles)
                <-> y <> 0 /\ exists a, In a (default [] articles)
                                        /\ Article.year a = Some y)
  /\ (forall y, In y (ResultsPage.yearOptions articles) ->
        (forall a, In a (default [] articles) -> m <= Article.citations a) ->
        ResultsPage.filteredArticles (Some y) m articles <> []
        /\ forall a, In a (ResultsPage.filteredArticles (Some y) m articles) ->
                     Article.year a = Some y).
Proof.
  assert (Hin : forall y, In y (ResultsPage.yearOptions articles)
                <-> y <> 0 /\ exists a, In a (default [] articles)
                                        /\ Article.year a = Some y).
  { intros y. unfold ResultsPage.yearOptions, ResultsPage.set_from.
    rewrite sort_desc_In.
    pose proof (first_by_keys (fun x : Z => x) []
                  (omap (fun a => ResultsPage.truthy_year (Article.year a))
                        (default [] articles)) y) as H.
    rewrite !map_id in H. rewrite H. clear H.
    rewrite <- list_elem_of_In, list_elem_of_omap. split.
    - intros [(a & Ha & Hy) _]. unfold ResultsPage.truthy_year in Hy.
      destruct (Article.year a) as [v|] eqn:Ev; [|discriminate].
      destruct (v =? 0) eqn:E0; [discriminate|]. injection Hy as <-.
      apply Z.eqb_neq in E0. split; [assumption|].
      exists a. by rewrite <- list_elem_of_In.
    - intros (Hy & a & Ha & Hv). split; [|apply not_elem_of_nil].
      exists a. split; [by rewrite list_elem_of_In|].
      unfold ResultsPage.truthy_year. rewrite Hv.
      apply Z.eqb_neq in Hy. by rewrite Hy. }
  split; [|split; [exact Hin|]].
  - unfold ResultsPage.yearOptions, ResultsPage.set_from.
    apply sort_desc_sorted.
    pose proof (first_by_NoDup (fun x : Z => x) []
                  (omap (fun a => ResultsPage.truthy_year (Article.year a))
                        (default [] articles))) as H.
    by rewrite map_id in H.
  - intros y Hy Hc. apply Hin in Hy. destruct Hy as (Hy0 & a & Ha & Hv).
    unfold ResultsPage.filteredArticles. split.
    + assert (Hk : In a (List.filter (ResultsPage.keeps (Some y) m)
                           (default [] articles))).
      { apply filter_In. split; [assumption|].
        unfold ResultsPage.keeps. rewrite Hv, bool_decide_eq_true_2 by done.
        rewrite andb_false_r. specialize (Hc a Ha).
        apply Z.ltb_ge in Hc. by rewrite Hc. }
      intros E. rewrite E in Hk. destruct Hk.
    + intros b Hb. apply filter_In in Hb. destruct Hb as [_ Hb].
      unfold ResultsPage.keeps, ResultsPage.year_filter_active in Hb.
      apply Z.eqb_neq in Hy0. rewrite Hy0 in Hb. simpl in Hb.
      destruct (bool_decide (Article.year b = Some y)) eqn:E;
        [by apply bool_decide_eq_true in E | discriminate].
Qed.

Lemma year_options_are_the_years_witness :
  ResultsPage.filteredArticles (Some 1843) 0 (Some [Sample.paper]) <> [].
Proof.
  destruct (year_options_are_the_years (Some [Sample.paper]) 0) as (_ & _ & H).
  apply (H 1843).
  - vm_compute. by left.
  - intros a [<-|[]]. simpl. lia.
Defined.

(** X5: the two counts of the toast of a finished extraction never
    count an entry twice (together they are at most the number of
    entries returned); and the PDF list shown for an article is never
    longer than the PDF count of the toast, which counts duplicates and
    null entries too. *)
Theorem toast_counts_bound (a : Article.t) (l : option (list AuthorEmail.t)) :
  (ResultsPage.authorEmailsCount l + ResultsPage.pdfEmailsCount l
   <= length (default [] l))%nat
  /\ (length (ResultsPage.uniquePdfFallbackEmails a)
      <= ResultsPage.pdfEmailsCount (Article.author_emails a))%nat.
Proof.
  split.
  - unfold ResultsPage.authorEmailsCount, ResultsPage.pdfEmailsCount.
    induction (default [] l) as [|e es IH]; simpl; [done|].
    destruct (AuthorEmail.is_pdf_fallback e); simpl;
      [|destruct (AuthorEmail.has_email e); simpl]; lia.
  - assert (Hu : map AuthorEmail.email (ResultsPage.uniquePdfFallbackEmails a)
                 = ResultsPage.set_from
                     (map AuthorEmail.email (ResultsPage.pdfFallbackEmails a))).
    { unfold ResultsPage.uniquePdfFallbackEmails. apply find_by_email.
      intros k Hk. unfold ResultsPage.set_from in Hk.
      apply (first_by_sub (fun x => x)) in Hk. tauto. }
    apply (f_equal (@length _)) in Hu. rewrite length_map in Hu.
    rewrite Hu. unfold ResultsPage.set_from.
    etransitivity; [apply first_by_length|].
    rewrite length_map. reflexivity.
Qed.

(** ** The search history page *)

Section History.

Import SearchHistoryPage.

Lemma deleted_history (titles : list string) (st : state) :
  history (fold_left (fun s t => handleDelete t s) titles st)
  = List.filter
      (fun a => negb (bool_decide (Article.title a ∈ titles)))
      (history st).
Proof.
  revert st. induction titles as [|t titles IH]; intros st.
  - cbn [fold_left]. symmetry. apply filter_all. intros a _.
    apply negb_true_iff, bool_decide_eq_false_2, not_elem_of_nil.
  - cbn [fold_left]. rewrite IH. unfold handleDelete. cbn [history].
    rewrite filter_filter. apply filter_ext. intros a.
    destruct (String.eqb (Article.title a) t) eqn:E; cbn [negb andb].
    + apply String.eqb_eq in E. subst t. symmetry.
      apply negb_false_iff, bool_decide_eq_true_2, elem_of_cons. by left.
    + apply String.eqb_neq in E. f_equal.
      apply bool_decide_ext. rewrite elem_of_cons. tauto.
Qed.

(** [searchAPI] has neither of the two members the page calls. *)
Lemma no_getSearchHistoryFile :
  SearchAPI.callable "getSearchHistoryFile" = false.
Proof. reflexivity. Qed.

Lemma no_updateSearchHistoryFile :
  SearchAPI.callable "updateSearchHistoryFile" = false.
Proof. reflexivity. Qed.

End History.

(** X6: the delete button of a row removes every entry of the history
    that has the row's title, not only that row; the other entries stay
    in their order.  Deleting twice is deleting once, deletions commute,
    and the history shrinks by the number of entries with that title. *)
Theorem delete_removes_all_with_title
  (article : Article.t) (t u : string) (st : SearchHistoryPage.state) :
  (forall a, In a (SearchHistoryPage.history
                     (SearchHistoryPage.click_delete article st)) ->
             Article.title a <> Article.title article)
  /\ sublist (SearchHistoryPage.history (SearchHistoryPage.handleDelete t st))
             (SearchHistoryPage.history st)
  /\ (forall a, In a (SearchHistoryPage.history st) -> Article.title a <> t ->
                In a (SearchHistoryPage.history
                        (SearchHistoryPage.handleDelete t st)))
  /\ SearchHistoryPage.handleDelete t (SearchHistoryPage.handleDelete t st)
     = SearchHistoryPage.handleDelete t st
  /\ SearchHistoryPage.handleDelete t (SearchHistoryPage.handleDelete u st)
     = SearchHistoryPage.handleDelete u (SearchHistoryPage.handleDelete t st)
  /\ (length (SearchHistoryPage.history (SearchHistoryPage.handleDelete t st))
      + length (List.filter (fun a => String.eqb (Article.title a) t)
                  (SearchHistoryPage.history st))
      = length (SearchHistoryPage.history st))%nat.
Proof.
  unfold SearchHistoryPage.click_delete, SearchHistoryPage.handleDelete. simpl.
  split; [|split; [|split; [|split; [|split]]]].
  - intros a Ha. apply filter_In in Ha. destruct Ha as [_ Ha].
    apply negb_true_iff, String.eqb_neq in Ha. exact Ha.
  - apply filter_sublist.
  - intros a Ha Hne. apply filter_In. split; [assumption|].
    by apply negb_true_iff, String.eqb_neq.
  - f_equal. rewrite filter_filter. apply filter_ext. intros a.
    by destruct (negb _).
  - f_equal. rewrite !filter_filter. apply filter_ext. intros a.
    apply andb_comm.
  - induction (SearchHistoryPage.history st) as [|a l IH]; simpl; [done|].
    destruct (String.eqb (Article.title a) t); simpl; lia.
Qed.

(** X7: [searchAPI] has neither [getSearchHistoryFile] nor
    [updateSearchHistoryFile], so both calls of the page throw before
    any request.  The save button never sends anything: it shows the
    save error and leaves the history on screen, the success message
    and the saving flag (off) as they are.  The page mounts with the
    load error and no rows, and whatever the user clicks afterwards it
    sends nothing and never shows a row. *)
Theorem history_page_never_loads_or_saves
  (st : SearchHistoryPage.state) (ok : bool)
  (answer : option (list Article.t)) (evs : list SearchHistoryPage.event) :
  (snd (SearchHistoryPage.handleSave st ok) = []
   /\ SearchHistoryPage.error (fst (SearchHistoryPage.handleSave st ok))
      = Some "Failed to save search history."
   /\ SearchHistoryPage.history (fst (SearchHistoryPage.handleSave st ok))
      = SearchHistoryPage.history st
   /\ SearchHistoryPage.success (fst (SearchHistoryPage.handleSave st ok))
      = SearchHistoryPage.success st
   /\ SearchHistoryPage.saving (fst (SearchHistoryPage.handleSave st ok)) = false)
  /\ snd (SearchHistoryPage.run st evs) = []
  /\ (snd (SearchHistoryPage.fetchHistory SearchHistoryPage.initial answer) = []
      /\ SearchHistoryPage.error
           (fst (SearchHistoryPage.fetchHistory SearchHistoryPage.initial answer))
         = Some "Failed to load search history."
      /\ SearchHistoryPage.history
           (fst (SearchHistoryPage.run
                   (fst (SearchHistoryPage.fetchHistory
                           SearchHistoryPage.initial answer)) evs)) = []
      /\ SearchHistoryPage.render
           (fst (SearchHistoryPage.run
                   (fst (SearchHistoryPage.fetchHistory
                           SearchHistoryPage.initial answer)) evs))
         = SearchHistoryPage.EmptyMessage).
Proof.
  assert (Hstep : forall s ev,
             snd (SearchHistoryPage.step s ev) = []
             /\ SearchHistoryPage.loading (fst (SearchHistoryPage.step s ev))
                = SearchHistoryPage.loading s
             /\ (SearchHistoryPage.history s = [] ->
                 SearchHistoryPage.history (fst (SearchHistoryPage.step s ev)) = [])).
  { intros s [index|o|]; simpl.
    - destruct (SearchHistoryPage.history s !! index) as [a|] eqn:E;
        simpl; [|done].
      do 2 (split; [done|]). intros Hn. by rewrite Hn.
    - destruct (SearchHistoryPage.saving s); [done|].
      unfold SearchHistoryPage.handleSave.
      rewrite no_updateSearchHistoryFile. done.
    - done. }
  assert (Hrun : forall l s,
             snd (SearchHistoryPage.run s l) = []
             /\ SearchHistoryPage.loading (fst (SearchHistoryPage.run s l))
                = SearchHistoryPage.loading s
             /\ (SearchHistoryPage.history s = [] ->
                 SearchHistoryPage.history (fst (SearchHistoryPage.run s l)) = [])).
  { induction l as [|ev l IH]; intros s; simpl; [done|].
    destruct (Hstep s ev) as (H1 & H2 & H3).
    destruct (SearchHistoryPage.step s ev) as [s1 d1]. simpl in *.
    destruct (IH s1) as (I1 & I2 & I3).
    destruct (SearchHistoryPage.run s1 l) as [s2 d2]. simpl in *.
    subst d1 d2. split; [done|]. split; [congruence | auto]. }
  split; [|split; [apply Hrun|]].
  - unfold SearchHistoryPage.handleSave. rewrite no_updateSearchHistoryFile.
    done.
  - assert (Hm : SearchHistoryPage.fetchHistory SearchHistoryPage.initial answer
                 = ({| SearchHistoryPage.history := [];
                       SearchHistoryPage.loading := false;
                       SearchHistoryPage.saving := false;
                       SearchHistoryPage.error :=
                         Some "Failed to load search history.";
                       SearchHistoryPage.success := None |}, [])).
    { unfold SearchHistoryPage.fetchHistory.
      rewrite no_getSearchHistoryFile. done. }
    rewrite Hm. cbn [fst snd SearchHistoryPage.error].
    do 2 (split; [done|]).
    match goal with
    | |- context [SearchHistoryPage.run ?m evs] =>
        destruct (Hrun evs m) as (_ & Hl & Hh)
    end.
    specialize (Hh eq_refl). split; [exact Hh|].
    unfold SearchHistoryPage.render. rewrite Hl, Hh. done.
Qed.

(** X8: once loading has ended the page shows the empty message exactly
    when the history is empty; a failed load leaves the history as it
    was, with the error set, and after deleting every title of the
    history the page shows the empty message. *)
Theorem history_page_empty_state
  (st : SearchHistoryPage.state) (answer : option (list Article.t)) :
  (SearchHistoryPage.render (fst (SearchHistoryPage.fetchHistory st answer))
   = SearchHistoryPage.EmptyMessage
   <-> SearchHistoryPage.history
         (fst (SearchHistoryPage.fetchHistory st answer)) = [])
  /\ (answer = None ->
      SearchHistoryPage.history (fst (SearchHistoryPage.fetchHistory st answer))
      = SearchHistoryPage.history st
      /\ SearchHistoryPage.error (fst (SearchHistoryPage.fetchHistory st answer))
         <> None)
  /\ (SearchHistoryPage.loading st = false ->
      SearchHistoryPage.render
        (fold_left (fun s t => SearchHistoryPage.handleDelete t s)
           (map Article.title (SearchHistoryPage.history st)) st)
      = SearchHistoryPage.EmptyMessage).
Proof.
  split; [|split].
  - unfold SearchHistoryPage.render, SearchHistoryPage.fetchHistory.
    rewrite no_getSearchHistoryFile. cbn.
    destruct (SearchHistoryPage.history st); split; (done || discriminate).
  - intros ->. unfold SearchHistoryPage.fetchHistory.
    rewrite no_getSearchHistoryFile. cbn.
    split; [reflexivity | discriminate].
  - intros Hl. unfold SearchHistoryPage.render.
    assert (Hload : forall ts s,
               SearchHistoryPage.loading
                 (fold_left (fun s t => SearchHistoryPage.handleDelete t s) ts s)
               = SearchHistoryPage.loading s).
    { induction ts as [|x ts IH]; intros s; simpl; [done|]. by rewrite IH. }
    rewrite Hload, Hl, deleted_history.
    rewrite filter_none; [done|].
    intros a Ha. apply negb_false_iff, bool_decide_eq_true_2.
    rewrite list_elem_of_In. by apply in_map.
Qed.

(** ** The batch dialog as a machine *)

Section Dialog.

Import BatchEmailSender.

Lemma enabled_passes_guards (st : state) :
  start_button st = Some false ->
  isComplete st = false /\ isLoading st = false
  /\ negb (Js.truthy (Js.trim (subject st))) = false
  /\ negb (includeAuthorEmails st) && negb (includePdfEmails st) = false.
Proof.
  unfold start_button, start_button_disabled.
  destruct (isComplete st); simpl; [discriminate|].
  intros [= H]. apply orb_false_iff in H. destruct H as [H H3].
  apply orb_false_iff in H. destruct H as [H1 H2]. auto.
Qed.

(** A dialog that is loading or complete does nothing but take frames. *)
Lemma retired_step (searchId : Z) (st : state) (ev : event) :
  isLoading st = true \/ isComplete st = true ->
  snd (step searchId st ev) = []
  /\ (isLoading (fst (step searchId st ev)) = true
      \/ isComplete (fst (step searchId st ev)) = true).
Proof.
  intros H. destruct ev as [v|c|c|answer|frame]; simpl.
  - destruct (isLoading st) eqn:E; simpl; [auto|].
    destruct H as [H|H]; [congruence | auto].
  - destruct (isLoading st) eqn:E; simpl; [auto|].
    destruct H as [H|H]; [congruence | auto].
  - destruct (isLoading st) eqn:E; simpl; [auto|].
    destruct H as [H|H]; [congruence | auto].
  - unfold click_start, start_button, start_button_disabled.
    destruct (isComplete st) eqn:Ec; simpl; [auto|].
    destruct H as [H|H]; [|discriminate]. rewrite H. simpl. auto.
  - split; [reflexivity|]. destruct frame as [d|]; simpl; [|exact H].
    destruct (String.eqb (ProgressData.type d) "completion"); simpl; auto.
Qed.

Lemma retired_run (searchId : Z) (evs : list event) (st : state) :
  isLoading st = true \/ isComplete st = true ->
  snd (run searchId st evs) = []
  /\ (isLoading (fst (run searchId st evs)) = true
      \/ isComplete (fst (run searchId st evs)) = true).
Proof.
  revert st. induction evs as [|ev evs IH]; intros st H; simpl; [auto|].
  destruct (retired_step searchId st ev H) as [H1 H2].
  destruct (step searchId st ev) as [st1 done1]. simpl in H1, H2.
  specialize (IH st1 H2). destruct (run searchId st1 evs) as [st2 done2].
  simpl in *. destruct IH as [-> IH]. subst done1. auto.
Qed.

(** What an enabled click does, by the answer of the server. *)
Lemma click_enabled (searchId : Z) (st : state) (answer : fetch_outcome) :
  start_button st = Some false ->
  click_start searchId st answer
  = match answer with
    | ResponseOk => (starting st, [PostBatchSend (body_of searchId st)])
    | ResponseNotOk detail =>
        (set_isLoading false (starting st),
         [PostBatchSend (body_of searchId st);
          Alert ("批量发送失败: " +:+ string_or detail "批量发送失败")])
    | FetchThrew message =>
        (set_isLoading false (starting st),
         [PostBatchSend (body_of searchId st);
          Alert ("批量发送失败: " +:+
                 match message with Some m => m | None => "未知错误" end)])
    end.
Proof.
  intros H. unfold click_start. rewrite H.
  apply enabled_passes_guards in H. destruct H as (_ & _ & H1 & H2).
  unfold handleBatchSend. rewrite H1, H2. reflexivity.
Qed.

(** [handleBatchSend] is [begin_send] with its answer handled at once. *)
Lemma handleBatchSend_begin_settle
  (searchId : Z) (st : state) (answer : fetch_outcome) :
  handleBatchSend searchId st answer
  = match begin_send searchId st with
    | Rejected msg => (st, [Alert msg])
    | Requested st1 body =>
        (fst (settle_send st1 answer),
         PostBatchSend body :: snd (settle_send st1 answer))
    end.
Proof.
  unfold handleBatchSend, begin_send.
  destruct (negb (Js.truthy (Js.trim (subject st)))); [reflexivity|].
  destruct (negb (includeAuthorEmails st) && negb (includePdfEmails st));
    [reflexivity|].
  destruct answer; reflexivity.
Qed.

(** Once complete, a dialog stays complete and does nothing. *)
Lemma arrivals_complete (searchId : Z) (l : list arrival) (st : state) :
  isComplete st = true ->
  snd (arrivals searchId st l) = []
  /\ isComplete (fst (arrivals searchId st l)) = true.
Proof.
  revert st. induction l as [|a l IH]; intros st H; [done|].
  assert (Hstep : snd (arrive searchId st a) = []
                  /\ isComplete (fst (arrive searchId st a)) = true).
  { destruct a as [[v|c|c|answer|frame]|]; simpl;
      try (destruct (isLoading st); simpl; done); try done.
    - unfold click_start, start_button. rewrite H. done.
    - destruct frame as [d|]; simpl; [|done].
      destruct (String.eqb (ProgressData.type d) "completion"); done. }
  destruct Hstep as [H1 H2]. cbn [arrivals].
  destruct (arrive searchId st a) as [st1 done1]. simpl in H1, H2.
  specialize (IH st1 H2).
  destruct (arrivals searchId st1 l) as [st2 done2]. simpl in *.
  destruct IH as [-> IH]. subst done1. done.
Qed.

(** While a request is out the dialog does nothing; it stays loading
    with the body it posted until a completion frame arrives, and is
    complete from then on. *)
Lemma arrivals_between (searchId : Z) (l : list arrival) (st : state) :
  isLoading st = true -> isComplete st = false ->
  snd (arrivals searchId st l) = []
  /\ (if existsb ends l
      then isComplete (fst (arrivals searchId st l)) = true
      else isLoading (fst (arrivals searchId st l)) = true
           /\ isComplete (fst (arrivals searchId st l)) = false
           /\ body_of searchId (fst (arrivals searchId st l))
              = body_of searchId st).
Proof.
  revert st. induction l as [|a l IH]; intros st Hl Hc; [done|].
  cbn [existsb arrivals]. destruct (ends a) eqn:Ea.
  - destruct a as [[v|c|c|answer|[d|]]|]; try discriminate.
    simpl in Ea. unfold is_completion in Ea.
    cbn [arrive step onmessage]. rewrite Ea.
    match goal with
    | |- context [arrivals searchId ?s l] =>
        destruct (arrivals_complete searchId l s eq_refl) as [H1 H2];
        destruct (arrivals searchId s l) as [st2 done2]
    end.
    simpl in *. by subst done2.
  - assert (Hstep : snd (arrive searchId st a) = []
                    /\ isLoading (fst (arrive searchId st a)) = true
                    /\ isComplete (fst (arrive searchId st a)) = false
                    /\ body_of searchId (fst (arrive searchId st a))
                       = body_of searchId st).
    { destruct a as [[v|c|c|answer|frame]|]; simpl; rewrite ?Hl; simpl;
        try done.
      - unfold click_start, start_button, start_button_disabled.
        rewrite Hl, Hc. done.
      - destruct frame as [d|]; simpl; [|done].
        simpl in Ea. unfold is_completion in Ea. rewrite Ea. done. }
    destruct Hstep as (H0 & H1 & H2 & H3).
    destruct (arrive searchId st a) as [st1 done1]. simpl in H0, H1, H2, H3.
    specialize (IH st1 H1 H2).
    destruct (arrivals searchId st1 l) as [st2 done2]. simpl in *.
    destruct IH as [-> IH]. subst done1. split; [done|].
    destruct (existsb ends l); [done|]. by rewrite <- H3.
Qed.

(** An enabled click sends; what [send] is then. *)
Lemma send_enabled (searchId : Z) (st : state) (between : list arrival)
  (answer : fetch_outcome) :
  start_button st = Some false ->
  send searchId st between answer
  = (fst (settle_send (fst (arrivals searchId (starting st) between)) answer),
     PostBatchSend (body_of searchId st)
     :: snd (settle_send (fst (arrivals searchId (starting st) between)) answer)).
Proof.
  intros H. unfold send. rewrite H.
  apply enabled_passes_guards in H. destruct H as (_ & _ & H1 & H2).
  unfold begin_send. rewrite H1, H2.
  destruct (arrivals_between searchId between (starting st) eq_refl eq_refl)
    as [Hn _].
  destruct (arrivals searchId (starting st) between) as [st2 done2].
  simpl in *. subst done2.
  destruct (settle_send st2 answer) as [st3 done3]. reflexivity.
Qed.

End Dialog.

(** X9: a click on the start button, when it is enabled, always posts:
    one request that carries the search id and the subject and boxes as
    they are in the dialog; the two alerts of the handler's own checks
    cannot come up this way, the only alert possible is the one of a
    failed request. *)
Theorem enabled_start_click_posts_once
  (searchId : Z) (st : BatchEmailSender.state)
  (answer : BatchEmailSender.fetch_outcome) :
  BatchEmailSender.start_button st = Some false ->
  exists rest,
    snd (BatchEmailSender.click_start searchId st answer)
    = BatchEmailSender.PostBatchSend (BatchEmailSender.body_of searchId st)
      :: rest
    /\ List.filter BatchEmailSender.is_post rest = []
    /\ (rest = [] <-> answer = BatchEmailSender.ResponseOk).
Proof.
  intros H. rewrite (click_enabled searchId st answer H).
  destruct answer; simpl; eexists; (split; [reflexivity|]);
    (split; [reflexivity|]); split; (done || discriminate).
Qed.

Lemma enabled_start_click_posts_once_witness :
  exists rest,
    snd (BatchEmailSender.click_start 5 BatchEmailSender.initial
           BatchEmailSender.ResponseOk)
    = BatchEmailSender.PostBatchSend
        (BatchEmailSender.body_of 5 BatchEmailSender.initial) :: rest
    /\ List.filter BatchEmailSender.is_post rest = []
    /\ (rest = [] <-> BatchEmailSender.ResponseOk = BatchEmailSender.ResponseOk).
Proof.
  apply (enabled_start_click_posts_once 5 BatchEmailSender.initial
           BatchEmailSender.ResponseOk).
  reflexivity.
Defined.

(** X10: a click on the enabled start button posts once, and nothing
    else is posted whatever arrives (edits, clicks, frames of any
    content) while the request is out.  When the request then fails (it
    threw, or the answer was not ok) there is one alert and the dialog
    is not loading.  If no completion frame arrived in between, the
    start button is enabled again with the subject and boxes as posted,
    and a retry posts the same body.  If one did arrive, the run is
    shown as complete and there is no start button to retry with.
    With nothing in between this is [click_start]. *)
Theorem failed_start_can_be_retried
  (searchId : Z) (st : BatchEmailSender.state)
  (between : list BatchEmailSender.arrival)
  (answer : BatchEmailSender.fetch_outcome) :
  BatchEmailSender.start_button st = Some false ->
  answer <> BatchEmailSender.ResponseOk ->
  (exists msg,
     snd (BatchEmailSender.send searchId st between answer)
     = [BatchEmailSender.PostBatchSend (BatchEmailSender.body_of searchId st);
        BatchEmailSender.Alert msg])
  /\ BatchEmailSender.isLoading
       (fst (BatchEmailSender.send searchId st between answer)) = false
  /\ (existsb BatchEmailSender.ends between = false ->
      BatchEmailSender.start_button
        (fst (BatchEmailSender.send searchId st between answer)) = Some false
      /\ forall between' answer',
           exists rest,
             snd (BatchEmailSender.send searchId
                    (fst (BatchEmailSender.send searchId st between answer))
                    between' answer')
             = BatchEmailSender.PostBatchSend
                 (BatchEmailSender.body_of searchId st) :: rest)
  /\ (existsb BatchEmailSender.ends between = true ->
      BatchEmailSender.start_button
        (fst (BatchEmailSender.send searchId st between answer)) = None
      /\ forall between' answer',
           snd (BatchEmailSender.send searchId
                  (fst (BatchEmailSender.send searchId st between answer))
                  between' answer') = [])
  /\ BatchEmailSender.send searchId st [] answer
     = BatchEmailSender.click_start searchId st answer.
Proof.
  intros H Hne.
  rewrite !(send_enabled searchId st _ answer H).
  destruct (arrivals_between searchId between (BatchEmailSender.starting st)
              eq_refl eq_refl) as [_ Hb].
  destruct (enabled_passes_guards st H) as (_ & _ & H1 & H2).
  set (st2 := fst (BatchEmailSender.arrivals searchId
                     (BatchEmailSender.starting st) between)) in *.
  assert (Hs : fst (BatchEmailSender.settle_send st2 answer)
               = BatchEmailSender.set_isLoading false st2
               /\ exists msg, snd (BatchEmailSender.settle_send st2 answer)
                              = [BatchEmailSender.Alert msg]).
  { destruct answer; [| |congruence]; simpl; eauto. }
  destruct Hs as [Hs1 [msg Hs2]]. cbn [fst snd]. rewrite Hs1, Hs2.
  split; [by exists msg|]. split; [reflexivity|].
  split; [|split].
  - intros He. rewrite He in Hb. destruct Hb as (Hl & Hc & Hbody).
    assert (Hen : BatchEmailSender.start_button
                    (BatchEmailSender.set_isLoading false st2) = Some false).
    { unfold BatchEmailSender.start_button,
        BatchEmailSender.start_button_disabled.
      cbn [BatchEmailSender.set_isLoading BatchEmailSender.isComplete
           BatchEmailSender.isLoading BatchEmailSender.subject
           BatchEmailSender.includeAuthorEmails
           BatchEmailSender.includePdfEmails].
      rewrite Hc.
      injection Hbody as Hsub Ha Hp.
      change (BatchEmailSender.subject (BatchEmailSender.starting st))
        with (BatchEmailSender.subject st) in Hsub.
      change (BatchEmailSender.includeAuthorEmails (BatchEmailSender.starting st))
        with (BatchEmailSender.includeAuthorEmails st) in Ha.
      change (BatchEmailSender.includePdfEmails (BatchEmailSender.starting st))
        with (BatchEmailSender.includePdfEmails st) in Hp.
      rewrite Hsub, Ha, Hp, H1, H2. reflexivity. }
    split; [exact Hen|].
    intros between' answer'.
    rewrite (send_enabled searchId _ between' answer' Hen).
    eexists. cbn [snd]. f_equal. f_equal.
    transitivity (BatchEmailSender.body_of searchId st2); [reflexivity|].
    rewrite Hbody. reflexivity.
  - intros He. rewrite He in Hb.
    assert (Hno : BatchEmailSender.start_button
                    (BatchEmailSender.set_isLoading false st2) = None).
    { unfold BatchEmailSender.start_button.
      cbn [BatchEmailSender.set_isLoading BatchEmailSender.isComplete].
      by rewrite Hb. }
    split; [exact Hno|].
    intros between' answer'. unfold BatchEmailSender.send. by rewrite Hno.
  - rewrite (click_enabled searchId st answer H).
    destruct answer; [| |congruence]; reflexivity.
Qed.

Lemma failed_start_can_be_retried_witness :
  BatchEmailSender.start_button
    (fst (BatchEmailSender.send 5 BatchEmailSender.initial
            [BatchEmailSender.PlainFrame;
             BatchEmailSender.Event
               (BatchEmailSender.SetSubject (Js.of_ascii_string "Other"))]
            (BatchEmailSender.ResponseNotOk None))) = Some false.
Proof.
  destruct (failed_start_can_be_retried 5 BatchEmailSender.initial
              [BatchEmailSender.PlainFrame;
               BatchEmailSender.Event
                 (BatchEmailSender.SetSubject (Js.of_ascii_string "Other"))]
              (BatchEmailSender.ResponseNotOk None) eq_refl
              ltac:(discriminate)) as (_ & _ & H & _).
  apply H. reflexivity.
Defined.

(** X11: a dialog posts at most one accepted request: once a click has
    been answered ok, whatever follows (edits, clicks, frames of any
    kind) adds no request.  And a dialog that has received a completion
    frame, even without having started anything, never posts. *)
Theorem started_dialog_posts_once
  (searchId : Z) (st : BatchEmailSender.state)
  (evs : list BatchEmailSender.event) :
  (BatchEmailSender.start_button st = Some false ->
   List.filter BatchEmailSender.is_post
     (snd (BatchEmailSender.run searchId st
             (BatchEmailSender.ClickStart BatchEmailSender.ResponseOk :: evs)))
   = [BatchEmailSender.PostBatchSend (BatchEmailSender.body_of searchId st)])
  /\ (BatchEmailSender.isComplete st = true ->
      snd (BatchEmailSender.run searchId st evs) = []).
Proof.
  split.
  - intros H.
    cbn [BatchEmailSender.run BatchEmailSender.step].
    rewrite (click_enabled searchId st BatchEmailSender.ResponseOk H).
    destruct (retired_run searchId evs (BatchEmailSender.starting st)
                (or_introl eq_refl)) as [Hnone _].
    destruct (BatchEmailSender.run searchId (BatchEmailSender.starting st) evs)
      as [st2 done2].
    simpl in *. subst done2. reflexivity.
  - intros Hc. apply retired_run. by right.
Qed.

Lemma started_dialog_posts_once_witness :
  List.filter BatchEmailSender.is_post
    (snd (BatchEmailSender.run 5 BatchEmailSender.initial
            [BatchEmailSender.ClickStart BatchEmailSender.ResponseOk;
             BatchEmailSender.ClickStart BatchEmailSender.ResponseOk;
             BatchEmailSender.Message (Some Sample.three_of_four);
             BatchEmailSender.SetSubject (Js.of_ascii_string "Again");
             BatchEmailSender.ClickStart BatchEmailSender.ResponseOk]))
  = [BatchEmailSender.PostBatchSend
       (BatchEmailSender.body_of 5 BatchEmailSender.initial)].
Proof.
  apply (proj1 (started_dialog_posts_once 5 BatchEmailSender.initial _)).
  reflexivity.
Defined.

(** ** Frames on the socket *)

(** X12: the frames of the top bar, whatever JSON they carry.  The bar
    sets one close timer of 5000 ms for each completion frame and none
    for any other frame; it is complete once a completion frame has
    arrived; a frame that does not parse changes nothing; and what the
    bar holds is what the last frame that parsed stored, so a [null]
    frame in the middle of a run hides the bar until the next frame.
    On frames that are rejected or carry a [ProgressData] this is
    [receive]. *)
Theorem bar_timers_count_completions
  (v : TopProgressBar.view) (frames : list TopProgressBar.frame)
  (st : TopProgressBar.state) (fs : list (option ProgressData.t)) :
  snd (TopProgressBar.receive_frames v frames)
  = repeat (TopProgressBar.SetTimeoutOnClose 5000)
      (length (List.filter TopProgressBar.completes frames))
  /\ TopProgressBar.complete (fst (TopProgressBar.receive_frames v frames))
     = TopProgressBar.complete v || existsb TopProgressBar.completes frames
  /\ fst (TopProgressBar.receive_frames v frames)
     = fst (TopProgressBar.receive_frames v
              (List.filter TopProgressBar.parses frames))
  /\ TopProgressBar.shown (fst (TopProgressBar.receive_frames v frames))
     = match last (List.filter TopProgressBar.parses frames) with
       | Some f => TopProgressBar.hold f (TopProgressBar.shown v)
       | None => TopProgressBar.shown v
       end
  /\ (forall isVisible,
        TopProgressBar.shows isVisible
          (fst (TopProgressBar.receive_frames v
                  (frames ++ [TopProgressBar.Null]))) = false)
  /\ TopProgressBar.receive_frames (TopProgressBar.widen st)
       (map TopProgressBar.parsed fs)
     = (TopProgressBar.widen (fst (TopProgressBar.receive st fs)),
        snd (TopProgressBar.receive st fs)).
Proof.
  assert (Hshown : forall l w,
             TopProgressBar.shown (fst (TopProgressBar.receive_frames w l))
             = match last (List.filter TopProgressBar.parses l) with
               | Some f => TopProgressBar.hold f (TopProgressBar.shown w)
               | None => TopProgressBar.shown w
               end).
  { induction l as [|f l IH]; intros w; [done|].
    cbn [TopProgressBar.receive_frames List.filter].
    destruct (onframe_hold w f) as (Hs & _ & _).
    specialize (IH (fst (TopProgressBar.onframe w f))).
    destruct (TopProgressBar.onframe w f) as [w1 d1]. cbn [fst] in *.
    destruct (TopProgressBar.receive_frames w1 l) as [w2 d2]. cbn [fst] in *.
    rewrite IH, Hs. destruct (TopProgressBar.parses f) eqn:Ef.
    - rewrite last_cons.
      destruct (last (List.filter TopProgressBar.parses l)) as [g|] eqn:Eg;
        [|done].
      apply hold_parsed.
      apply last_Some_elem_of, list_elem_of_In, filter_In in Eg. tauto.
    - destruct f; try discriminate. done. }
  split; [|split; [|split; [|split; [exact (Hshown frames v)|split]]]].
  - revert v. induction frames as [|f frames IH]; intros v; [done|].
    cbn [TopProgressBar.receive_frames List.filter].
    destruct (onframe_hold v f) as (_ & _ & Hd).
    specialize (IH (fst (TopProgressBar.onframe v f))).
    destruct (TopProgressBar.onframe v f) as [v1 d1]. cbn [fst snd] in *.
    destruct (TopProgressBar.receive_frames v1 frames) as [v2 d2].
    cbn [fst snd] in *. subst d1 d2.
    by destruct (TopProgressBar.completes f).
  - revert v. induction frames as [|f frames IH]; intros v;
      [simpl; by rewrite orb_false_r|].
    cbn [TopProgressBar.receive_frames existsb].
    destruct (onframe_hold v f) as (_ & Hc & _).
    specialize (IH (fst (TopProgressBar.onframe v f))).
    destruct (TopProgressBar.onframe v f) as [v1 d1]. cbn [fst snd] in *.
    destruct (TopProgressBar.receive_frames v1 frames) as [v2 d2].
    cbn [fst snd] in *. rewrite IH, Hc. by rewrite orb_assoc.
  - revert v. induction frames as [|f frames IH]; intros v; [done|].
    cbn [TopProgressBar.receive_frames List.filter].
    destruct f as [| |b|d]; cbn [TopProgressBar.parses].
    + cbn [TopProgressBar.onframe]. specialize (IH v).
      destruct (TopProgressBar.receive_frames v frames) as [v2 d2].
      exact IH.
    + cbn [TopProgressBar.receive_frames].
      specialize (IH (fst (TopProgressBar.onframe v TopProgressBar.Null))).
      destruct (TopProgressBar.onframe v TopProgressBar.Null) as [v1 d1].
      cbn [fst] in IH.
      destruct (TopProgressBar.receive_frames v1 frames) as [v2 d2].
      destruct (TopProgressBar.receive_frames v1 _) as [v3 d3].
      exact IH.
    + cbn [TopProgressBar.receive_frames].
      specialize (IH (fst (TopProgressBar.onframe v (TopProgressBar.Plain b)))).
      destruct (TopProgressBar.onframe v (TopProgressBar.Plain b)) as [v1 d1].
      cbn [fst] in IH.
      destruct (TopProgressBar.receive_frames v1 frames) as [v2 d2].
      destruct (TopProgressBar.receive_frames v1 _) as [v3 d3].
      exact IH.
    + cbn [TopProgressBar.receive_frames].
      specialize (IH (fst (TopProgressBar.onframe v (TopProgressBar.Data d)))).
      destruct (TopProgressBar.onframe v (TopProgressBar.Data d)) as [v1 d1].
      cbn [fst] in IH.
      destruct (TopProgressBar.receive_frames v1 frames) as [v2 d2].
      destruct (TopProgressBar.receive_frames v1 _) as [v3 d3].
      exact IH.
  - intros isVisible. unfold TopProgressBar.shows.
    rewrite Hshown, List.filter_app.
    change (List.filter TopProgressBar.parses [TopProgressBar.Null])
      with [TopProgressBar.Null].
    rewrite last_snoc. simpl. apply andb_false_r.
  - revert st. induction fs as [|f fs IH]; intros st; [done|].
    cbn [map TopProgressBar.receive_frames TopProgressBar.receive].
    assert (Hf : TopProgressBar.onframe (TopProgressBar.widen st)
                   (TopProgressBar.parsed f)
                 = (TopProgressBar.widen (fst (TopProgressBar.onmessage st f)),
                    snd (TopProgressBar.onmessage st f))).
    { destruct f as [d|]; simpl.
      - destruct (String.eqb (ProgressData.type d) "completion"); done.
      - by destruct st. }
    rewrite Hf. specialize (IH (fst (TopProgressBar.onmessage st f))).
    destruct (TopProgressBar.onmessage st f) as [st1 d1]. cbn [fst snd] in *.
    rewrite IH.
    destruct (TopProgressBar.receive st1 fs) as [st2 d2]. done.
Qed.

(** ** The simulated extraction dialog *)

Section Simulation.

Import PDFExtractionProgress.

Lemma turn_status (i idx : nat) (st : state) :
  map status (steps (turn i st)) !! idx
  = (fun s => if (idx <? i)%nat then completed
              else if (idx =? i)%nat then in_progress else s)
    <$> (map status (steps st) !! idx).
Proof.
  unfold turn. cbn [steps].
  change (map status ?l) with (status <$> l).
  rewrite !list_lookup_fmap, list_lookup_imap.
  destruct (steps st !! idx) as [s|]; simpl; [|done].
  destruct (idx <? i)%nat; [done|]. destruct (idx =? i)%nat; done.
Qed.

Lemma turns_status (extra : nat -> Z) (n i idx : nat) (st : state) :
  map status (steps (fst (turns extra i (S n) st))) !! idx
  = (fun s => if (idx <? i + n)%nat then completed
              else if (idx =? i + n)%nat then in_progress else s)
    <$> (map status (steps st) !! idx).
Proof.
  revert i st. induction n as [|n IH]; intros i st.
  - change (fst (turns extra i 1 st)) with (turn i st).
    rewrite turn_status. by rewrite Nat.add_0_r.
  - change (fst (turns extra i (S (S n)) st))
      with (fst (let '(st', effs) := turns extra (S i) (S n) (turn i st) in
                 (st', Wait (2000 + extra i) :: effs))).
    destruct (turns extra (S i) (S n) (turn i st)) as [st' effs] eqn:E.
    cbn [fst]. specialize (IH (S i) (turn i st)). rewrite E in IH.
    cbn [fst] in IH. rewrite IH, turn_status.
    destruct (map status (steps st) !! idx) as [s|]; simpl; [|done].
    replace (S (i + n)) with (i + S n)%nat by lia.
    destruct (idx <? i + S n)%nat eqn:H1; [done|].
    destruct (idx =? i + S n)%nat eqn:H2; [done|].
    apply Nat.ltb_ge in H1. apply Nat.eqb_neq in H2.
    assert (Hlt : (idx <? i)%nat = false) by (apply Nat.ltb_ge; lia).
    assert (Hne : (idx =? i)%nat = false) by (apply Nat.eqb_neq; lia).
    by rewrite Hlt, Hne.
Qed.

Lemma turn_frame (i : nat) (st : state) :
  map PDFExtractionProgress.id (steps (turn i st))
  = map PDFExtractionProgress.id (steps st).
Proof.
  apply list_eq. intros idx. unfold turn. cbn [steps].
  change (map PDFExtractionProgress.id ?l) with (PDFExtractionProgress.id <$> l).
  rewrite !list_lookup_fmap, list_lookup_imap.
  destruct (steps st !! idx) as [s|]; simpl; [|done].
  destruct (idx <? i)%nat; [done|]. destruct (idx =? i)%nat; done.
Qed.

Lemma turns_current (extra : nat -> Z) (n i : nat) (st : state) :
  currentStep (fst (turns extra i (S n) st)) = (i + n)%nat
  /\ map PDFExtractionProgress.id (steps (fst (turns extra i (S n) st)))
     = map PDFExtractionProgress.id (steps st)
  /\ extractionResult (fst (turns extra i (S n) st)) = extractionResult st.
Proof.
  revert i st. induction n as [|n IH]; intros i st.
  - change (fst (turns extra i 1 st)) with (turn i st).
    rewrite turn_frame, Nat.add_0_r. done.
  - change (fst (turns extra i (S (S n)) st))
      with (fst (let '(st', effs) := turns extra (S i) (S n) (turn i st) in
                 (st', Wait (2000 + extra i) :: effs))).
    destruct (turns extra (S i) (S n) (turn i st)) as [st' effs] eqn:E.
    cbn [fst]. specialize (IH (S i) (turn i st)). rewrite E in IH.
    cbn [fst] in IH. destruct IH as (-> & -> & ->). rewrite turn_frame.
    split; [lia | done].
Qed.

End Simulation.

(** X13: while the simulation waits in its turn number [k], started on
    steps that are all pending, the steps before the [k]-th read
    completed, the [k]-th reads in progress and the later ones pending:
    one step is running at a time, none ever reads failed, the ids are
    untouched and no result is shown yet. *)
Theorem simulation_runs_one_step_at_a_time
  (extra : nat -> Z) (st : PDFExtractionProgress.state) (k idx : nat)
  (s : PDFExtractionProgress.PDFExtractionStep) :
  Forall (fun x => PDFExtractionProgress.status x = PDFExtractionProgress.pending)
         (PDFExtractionProgress.steps st) ->
  (1 <= k)%nat ->
  PDFExtractionProgress.steps (PDFExtractionProgress.after_turns extra k st) !! idx
  = Some s ->
  PDFExtractionProgress.status s
  = (if (idx <? k - 1)%nat then PDFExtractionProgress.completed
     else if (idx =? k - 1)%nat then PDFExtractionProgress.in_progress
     else PDFExtractionProgress.pending)
  /\ PDFExtractionProgress.status s <> PDFExtractionProgress.failed
  /\ PDFExtractionProgress.currentStep
       (PDFExtractionProgress.after_turns extra k st) = (k - 1)%nat
  /\ map PDFExtractionProgress.id
       (PDFExtractionProgress.steps (PDFExtractionProgress.after_turns extra k st))
     = map PDFExtractionProgress.id (PDFExtractionProgress.steps st)
  /\ PDFExtractionProgress.extractionResult
       (PDFExtractionProgress.after_turns extra k st)
     = PDFExtractionProgress.extractionResult st.
Proof.
  intros Hall Hk Hs. destruct k as [|n]; [lia|].
  unfold PDFExtractionProgress.after_turns in *.
  replace (S n - 1)%nat with n by lia.
  destruct (turns_current extra n 0 st) as (Hc & Hid & Hr).
  pose proof (turns_status extra n 0 idx st) as Hst.
  change (map PDFExtractionProgress.status ?l)
    with (PDFExtractionProgress.status <$> l) in Hst.
  rewrite !list_lookup_fmap, Hs in Hst. simpl in Hst.
  destruct (PDFExtractionProgress.steps st !! idx) as [s0|] eqn:E0;
    [|discriminate].
  simpl in Hst. injection Hst as Hst.
  assert (Hp : PDFExtractionProgress.status s0 = PDFExtractionProgress.pending).
  { rewrite Forall_lookup in Hall. by apply (Hall idx). }
  rewrite Hp in Hst.
  split; [exact Hst|]. split; [|auto].
  rewrite Hst. destruct (idx <? n)%nat; [discriminate|].
  destruct (idx =? n)%nat; discriminate.
Qed.

Lemma simulation_runs_one_step_at_a_time_witness :
  map PDFExtractionProgress.status
    (PDFExtractionProgress.steps
       (PDFExtractionProgress.after_turns (fun _ => 0) 3
          PDFExtractionProgress.initial))
  = [PDFExtractionProgress.completed; PDFExtractionProgress.completed;
     PDFExtractionProgress.in_progress; PDFExtractionProgress.pending;
     PDFExtractionProgress.pending; PDFExtractionProgress.pending;
     PDFExtractionProgress.pending]
  /\ exists s,
       PDFExtractionProgress.steps
         (PDFExtractionProgress.after_turns (fun _ => 0) 3
            PDFExtractionProgress.initial) !! 2%nat = Some s
       /\ PDFExtractionProgress.status s = PDFExtractionProgress.in_progress.
Proof.
  split; [reflexivity|].
  eexists. split; [reflexivity|].
  eapply (simulation_runs_one_step_at_a_time (fun _ => 0)
            PDFExtractionProgress.initial 3 2).
  - repeat constructor.
  - lia.
  - reflexivity.
Defined.

(** ** The single-mail dialog *)

Section Mail.

Import EmailSender.

Lemma falsy_false (s : string) : falsy s = false <-> s <> "".
Proof. unfold falsy. apply String.eqb_neq. Qed.

(** The request of [sendEmail], when its checks pass. *)
Lemma sendEmail_posts (p : props) (subj : string) :
  falsy (authorEmail p) = false -> falsy subj = false ->
  falsy (authorName p) = false -> falsy (paperTitle p) = false ->
  sendEmail p subj true
  = [PostEmailSend {|
       SendRequest.to_email := authorEmail p;
       SendRequest.subject := subj;
       SendRequest.author_name := authorName p;
       SendRequest.paper_title := paperTitle p;
       SendRequest.paper_venue := paperVenue p;
       SendRequest.paper_year := paperYear p;
       SendRequest.paper_citations := paperCitations p |}].
Proof. unfold sendEmail. by intros -> -> -> ->. Qed.

Lemma send_is_guarded (p : props) (st : state) (answer : option SendResult)
  (r : SendRequest.t) :
  In (Do (PostEmailSend r)) (snd (run_sendEmail p st answer)) ->
  config_valid st = true
  /\ falsy (authorEmail p) = false /\ falsy (subject st) = false
  /\ falsy (authorName p) = false /\ falsy (paperTitle p) = false.
Proof.
  unfold run_sendEmail, sendEmail.
  destruct (falsy (authorEmail p)); simpl;
    [intros [H|[]]; discriminate|].
  destruct (falsy (subject st)); simpl; [intros [H|[]]; discriminate|].
  destruct (falsy (authorName p)); simpl; [intros [H|[]]; discriminate|].
  destruct (falsy (paperTitle p)); simpl; [intros [H|[]]; discriminate|].
  destruct (config_valid st); simpl; [auto|].
  intros [H|[]]; discriminate.
Qed.

End Mail.

(** X14: a click on the enabled preview button always posts the preview
    request.  The send button is enabled without looking at the author
    name and the paper title, which the handler does check: an enabled
    click with either of them empty shows "fill in everything" and
    sends nothing, and with both present it posts one request to the
    address and with the subject of the dialog. *)
Theorem mail_buttons_and_handler_checks
  (p : EmailSender.props) (st : EmailSender.state)
  (pv : option EmailSender.EmailPreview) (res : option EmailSender.SendResult) :
  (EmailSender.preview_disabled p st = false ->
   exists r rest, snd (EmailSender.click_preview p st pv)
                  = EmailSender.Do (EmailSender.PostEmailPreview r) :: rest)
  /\ (EmailSender.send_disabled p st = false ->
      (EmailSender.authorName p = "" \/ EmailSender.paperTitle p = "" ->
       snd (EmailSender.click_send p st res)
       = [EmailSender.Do (EmailSender.ToastError "请填写完整信息")])
      /\ (EmailSender.authorName p <> "" -> EmailSender.paperTitle p <> "" ->
          exists r rest,
            snd (EmailSender.click_send p st res)
            = EmailSender.Do (EmailSender.PostEmailSend r) :: rest
            /\ EmailSender.SendRequest.to_email r = EmailSender.authorEmail p
            /\ EmailSender.SendRequest.subject r = EmailSender.subject st
            /\ List.filter EmailSender.is_send rest = [])).
Proof.
  split.
  - intros H. unfold EmailSender.click_preview. rewrite H.
    unfold EmailSender.preview_disabled in H.
    apply orb_false_iff in H. destruct H as [H H2].
    apply orb_false_iff in H. destruct H as [_ H1].
    unfold EmailSender.run_generatePreview, EmailSender.generatePreview.
    rewrite H1, H2. destruct pv; simpl; eauto.
  - intros H. unfold EmailSender.click_send. rewrite H.
    unfold EmailSender.send_disabled in H.
    apply orb_false_iff in H. destruct H as [H Hc].
    apply orb_false_iff in H. destruct H as [H Hs].
    apply orb_false_iff in H. destruct H as [_ He].
    apply negb_false_iff in Hc.
    unfold EmailSender.run_sendEmail, EmailSender.sendEmail.
    rewrite He, Hs, Hc. simpl. split.
    + intros [Hn|Ht].
      * rewrite Hn. reflexivity.
      * rewrite Ht. by destruct (EmailSender.falsy (EmailSender.authorName p)).
    + intros Hn Ht. apply falsy_false in Hn, Ht. rewrite Hn, Ht. simpl.
      do 2 eexists. split; [reflexivity|]. do 2 (split; [reflexivity|]).
      destruct res as [result|]; simpl; [destruct (EmailSender.success result)|];
        reflexivity.
Qed.

Lemma mail_buttons_and_handler_checks_witness :
  EmailSender.send_disabled Sample.nameless_dialog Sample.mail_ready = false
  /\ snd (EmailSender.click_send Sample.nameless_dialog Sample.mail_ready None)
     = [EmailSender.Do (EmailSender.ToastError "请填写完整信息")].
Proof.
  split; [reflexivity|].
  destruct (mail_buttons_and_handler_checks Sample.nameless_dialog
              Sample.mail_ready None None) as [_ H].
  destruct (H eq_refl) as [H1 _]. apply H1. by left.
Defined.

(** X15: no mail leaves the dialog without a configuration check that
    came back valid: a send request among the effects of [sendEmail]
    means the stored configuration is valid (and the address, subject,
    name and title are present); before the check has answered, after a
    check that threw and after one that reported an invalid
    configuration the send button is disabled and [sendEmail] posts
    nothing. *)
Theorem no_send_without_valid_config
  (p : EmailSender.props) (st : EmailSender.state)
  (cfg : option EmailSender.EmailConfig) (res : option EmailSender.SendResult) :
  (forall r, In (EmailSender.Do (EmailSender.PostEmailSend r))
                (snd (EmailSender.run_sendEmail p st res)) ->
             exists c, EmailSender.emailConfig st = Some c
                       /\ EmailSender.valid c = true)
  /\ (EmailSender.emailConfig st = None ->
      EmailSender.send_disabled p st = true
      /\ List.filter EmailSender.is_send
           (snd (EmailSender.run_sendEmail p st res)) = [])
  /\ ((forall c, cfg = Some c -> EmailSender.valid c = false) ->
      EmailSender.send_disabled p (fst (EmailSender.checkEmailConfig st cfg)) = true
      /\ List.filter EmailSender.is_send
           (snd (EmailSender.run_sendEmail p
                   (fst (EmailSender.checkEmailConfig st cfg)) res)) = []
      /\ exists msg, In (EmailSender.Do (EmailSender.ToastError msg))
                        (snd (EmailSender.checkEmailConfig st cfg))).
Proof.
  assert (G : forall s, EmailSender.config_valid s = false ->
              EmailSender.send_disabled p s = true
              /\ List.filter EmailSender.is_send
                   (snd (EmailSender.run_sendEmail p s res)) = []).
  { intros s Hs. split.
    - unfold EmailSender.send_disabled. rewrite Hs. simpl. apply orb_true_r.
    - unfold EmailSender.run_sendEmail, EmailSender.sendEmail. rewrite Hs.
      destruct (_ || _); reflexivity. }
  split; [|split].
  - intros r Hr. apply send_is_guarded in Hr. destruct Hr as [Hc _].
    unfold EmailSender.config_valid in Hc.
    destruct (EmailSender.emailConfig st) as [c|]; [eauto | discriminate].
  - intros Hn. apply G. unfold EmailSender.config_valid. by rewrite Hn.
  - intros Hinv.
    assert (Hv : EmailSender.config_valid
                   (fst (EmailSender.checkEmailConfig st cfg)) = false).
    { destruct cfg as [c|]; simpl; [|reflexivity].
      unfold EmailSender.config_valid. simpl. by apply Hinv. }
    destruct (G _ Hv) as [G1 G2]. do 2 (split; [assumption|]).
    destruct cfg as [c|]; simpl.
    + rewrite (Hinv c eq_refl). eexists. right. left. reflexivity.
    + eexists. right. left. reflexivity.
Qed.

Lemma no_send_without_valid_config_witness :
  EmailSender.send_disabled Sample.dialog
    (fst (EmailSender.checkEmailConfig Sample.mail_ready None)) = true
  /\ List.filter EmailSender.is_send
       (snd (EmailSender.run_sendEmail Sample.dialog
               (fst (EmailSender.checkEmailConfig Sample.mail_ready None))
               None)) = [].
Proof.
  destruct (no_send_without_valid_config Sample.dialog Sample.mail_ready
              None None) as (_ & _ & H).
  destruct H as (H1 & H2 & _); [discriminate|]. split; assumption.
Defined.

(** X16: the dialog is closed by [sendEmail] only when the server
    reports the mail as sent; every other outcome leaves it open with an
    error toast.  After either handler its spinner flag is off, and a
    preview request that failed leaves the pane showing what it showed
    before, while one that succeeded shows the new document. *)
Theorem mail_outcomes
  (p : EmailSender.props) (st : EmailSender.state)
  (pv : option EmailSender.EmailPreview) (res : option EmailSender.SendResult) :
  (In EmailSender.OnClose (snd (EmailSender.click_send p st res))
   <-> EmailSender.send_disabled p st = false
       /\ EmailSender.authorName p <> "" /\ EmailSender.paperTitle p <> ""
       /\ exists result, res = Some result /\ EmailSender.success result = true)
  /\ (EmailSender.send_disabled p st = false ->
      EmailSender.isSending (fst (EmailSender.click_send p st res)) = false)
  /\ (EmailSender.preview_disabled p st = false ->
      EmailSender.isLoadingPreview (fst (EmailSender.click_preview p st pv)) = false
      /\ (pv = None ->
          EmailSender.preview_pane (fst (EmailSender.click_preview p st pv))
          = EmailSender.preview_pane st)
      /\ (forall d, pv = Some d ->
          EmailSender.preview_pane (fst (EmailSender.click_preview p st pv))
          = Some (EmailSender.html_content d))).
Proof.
  split; [|split].
  - unfold EmailSender.click_send.
    destruct (EmailSender.send_disabled p st) eqn:Hd.
    { simpl. split; [tauto | intros [H _]; discriminate]. }
    unfold EmailSender.send_disabled in Hd.
    apply orb_false_iff in Hd. destruct Hd as [Hd Hc].
    apply orb_false_iff in Hd. destruct Hd as [Hd Hs].
    apply orb_false_iff in Hd. destruct Hd as [_ He].
    apply negb_false_iff in Hc.
    unfold EmailSender.run_sendEmail, EmailSender.sendEmail.
    rewrite He, Hs, Hc. simpl.
    destruct (EmailSender.falsy (EmailSender.authorName p)) eqn:Hn; simpl.
    { split.
      - intros [H|[]]. discriminate.
      - intros (_ & Hne & _). apply falsy_false in Hne. congruence. }
    destruct (EmailSender.falsy (EmailSender.paperTitle p)) eqn:Ht; simpl.
    { split.
      - intros [H|[]]. discriminate.
      - intros (_ & _ & Hne & _). apply falsy_false in Hne. congruence. }
    apply falsy_false in Hn, Ht.
    destruct res as [result|]; simpl.
    + destruct (EmailSender.success result) eqn:Hr; simpl.
      * split; [|auto]. intros _. do 3 (split; [done|]). eauto.
      * split.
        -- intros [H|[H|[]]]; discriminate.
        -- intros (_ & _ & _ & r & [= <-] & Hr'). congruence.
    + split.
      * intros [H|[H|[]]]; discriminate.
      * intros (_ & _ & _ & r & H & _). discriminate.
  - intros Hd. unfold EmailSender.click_send. rewrite Hd.
    unfold EmailSender.send_disabled in Hd.
    apply orb_false_iff in Hd. destruct Hd as [Hd _].
    apply orb_false_iff in Hd. destruct Hd as [Hd _].
    apply orb_false_iff in Hd. destruct Hd as [Hi _].
    unfold EmailSender.run_sendEmail.
    destruct (EmailSender.sendEmail p _ _) as [|[m|d|d] [|e l]]; simpl; auto.
  - intros Hd. unfold EmailSender.click_preview. rewrite Hd.
    unfold EmailSender.preview_disabled in Hd.
    apply orb_false_iff in Hd. destruct Hd as [Hd H2].
    apply orb_false_iff in Hd. destruct Hd as [_ H1].
    unfold EmailSender.run_generatePreview, EmailSender.generatePreview.
    rewrite H1, H2. simpl.
    destruct pv as [d|]; simpl.
    + split; [done|]. split; [discriminate|]. by intros d' [= <-].
    + split; [done|]. split; [done | discriminate].
Qed.

Lemma mail_outcomes_witness :
  In EmailSender.OnClose
    (snd (EmailSender.click_send Sample.dialog Sample.mail_ready
            (Some {| EmailSender.success := true;
                     EmailSender.result_message := "sent" |}))).
Proof.
  apply (proj1 (mail_outcomes Sample.dialog Sample.mail_ready None _)).
  split; [reflexivity|]. split; [discriminate|]. split; [discriminate|].
  eexists. split; reflexivity.
Defined.

(** ** From an author's row to the mail *)

(** X22: whenever the dialog posts a mail, its preview button posts
    too, and the two requests agree on the five fields the template is
    filled with: the name, the title, the venue, the year and the
    citations of the props.  The mail goes to the address of the props
    under the subject typed. *)
Theorem mail_and_preview_requests_agree
  (p : EmailSender.props) (subject : string) (config_valid : bool)
  (r : EmailSender.SendRequest.t) :
  In (EmailSender.PostEmailSend r)
     (EmailSender.sendEmail p subject config_valid) ->
  EmailSender.generatePreview p
  = [EmailSender.PostEmailPreview
       {| EmailSender.PreviewRequest.author_name :=
            EmailSender.SendRequest.author_name r;
          EmailSender.PreviewRequest.paper_title :=
            EmailSender.SendRequest.paper_title r;
          EmailSender.PreviewRequest.paper_venue :=
            EmailSender.SendRequest.paper_venue r;
          EmailSender.PreviewRequest.paper_year :=
            EmailSender.SendRequest.paper_year r;
          EmailSender.PreviewRequest.paper_citations :=
            EmailSender.SendRequest.paper_citations r |}]
  /\ EmailSender.SendRequest.to_email r = EmailSender.authorEmail p
  /\ EmailSender.SendRequest.subject r = subject
  /\ EmailSender.SendRequest.author_name r <> ""
  /\ EmailSender.SendRequest.paper_title r <> "".
Proof.
  unfold EmailSender.sendEmail, EmailSender.generatePreview.
  destruct (EmailSender.falsy (EmailSender.authorEmail p)
            || EmailSender.falsy subject
            || EmailSender.falsy (EmailSender.authorName p)
            || EmailSender.falsy (EmailSender.paperTitle p)) eqn:E.
  { intros [H|[]]. discriminate. }
  apply orb_false_iff in E. destruct E as [E Ht].
  apply orb_false_iff in E. destruct E as [_ Hn].
  destruct (negb config_valid).
  { intros [H|[]]. discriminate. }
  intros [H|[]]. injection H as <-. rewrite Hn, Ht. simpl.
  do 3 (split; [reflexivity|]).
  split; by apply falsy_false.
Qed.

Lemma mail_and_preview_requests_agree_witness :
  exists r,
    In (EmailSender.PostEmailSend r)
       (EmailSender.sendEmail Sample.dialog "Hello" true)
    /\ EmailSender.SendRequest.to_email r = "ada@example.org"
    /\ EmailSender.SendRequest.paper_title r <> "".
Proof.
  eexists. split; [left; reflexivity|].
  match goal with
  | |- context [EmailSender.SendRequest.to_email ?r] =>
      destruct (mail_and_preview_requests_agree Sample.dialog "Hello" true r
                  (or_introl eq_refl)) as (_ & H1 & _ & _ & H2)
  end.
  split; [exact H1 | exact H2].
Defined.

(** X17: the send button of an author's row exists only next to a
    non-empty address that did not come from the PDF fallback, the
    address of the first entry under the author's name.  Clicking it
    opens the mail dialog for exactly that address, author and article,
    so the preview request carries the author's name and the article's
    title, venue, year and citations, and a send goes to the address
    shown. *)
Theorem author_row_mail_is_about_that_row
  (article : Article.t) (author : AuthorLink.t)
  (st : ResultsPageDialogs.state) (email source subject : string) :
  ResultsPage.render_author_cell article author
  = ResultsPage.EmailShown email source ->
  email <> "" /\ source <> "pdf_fallback"
  /\ (exists entry,
        ResultsPage.find_author_email article author = Some entry
        /\ AuthorEmail.email entry = Some email
        /\ AuthorEmail.email_source entry = source
        /\ AuthorEmail.name entry = AuthorLink.name author)
  /\ exists p,
       ResultsPageDialogs.email_sender
         (ResultsPageDialogs.click_author_send article author st) = Some p
       /\ EmailSender.isOpen p = true
       /\ EmailSender.authorEmail p = email
       /\ (AuthorLink.name author <> "" -> Article.title article <> "" ->
           EmailSender.generatePreview p
           = [EmailSender.PostEmailPreview {|
                EmailSender.PreviewRequest.author_name := AuthorLink.name author;
                EmailSender.PreviewRequest.paper_title := Article.title article;
                EmailSender.PreviewRequest.paper_venue := Article.venue article;
                EmailSender.PreviewRequest.paper_year := Article.year article;
                EmailSender.PreviewRequest.paper_citations :=
                  Some (Article.citations article) |}]
           /\ (subject <> "" ->
               exists r, EmailSender.sendEmail p subject true
                         = [EmailSender.PostEmailSend r]
                         /\ EmailSender.SendRequest.to_email r = email
                         /\ EmailSender.SendRequest.paper_title r
                            = Article.title article)).
Proof.
  intros Hcell.
  unfold ResultsPageDialogs.click_author_send. rewrite Hcell.
  unfold ResultsPage.render_author_cell in Hcell.
  destruct (ResultsPage.find_author_email article author) as [entry|] eqn:Hf.
  2:{ destruct (Article.author_emails article); discriminate. }
  destruct (AuthorEmail.has_email entry) eqn:Hh; simpl in Hcell.
  2:{ destruct (AuthorEmail.is_pdf_fallback entry); discriminate. }
  destruct (AuthorEmail.is_pdf_fallback entry) eqn:Hp; simpl in Hcell;
    [discriminate|].
  injection Hcell as He Hs.
  unfold AuthorEmail.has_email in Hh.
  destruct (AuthorEmail.email entry) as [addr|] eqn:Ea; [|discriminate].
  simpl in He. subst addr.
  apply negb_true_iff, String.eqb_neq in Hh.
  unfold AuthorEmail.is_pdf_fallback in Hp. apply String.eqb_neq in Hp.
  rewrite Hs in Hp.
  assert (Hname : AuthorEmail.name entry = AuthorLink.name author).
  { unfold ResultsPage.find_author_email in Hf.
    destruct (Article.author_emails article) as [es|]; [|discriminate].
    apply find_some in Hf. destruct Hf as [_ Hf]. by apply String.eqb_eq in Hf. }
  split; [assumption|]. split; [assumption|].
  split; [exists entry; auto|].
  eexists. split; [reflexivity|]. simpl.
  do 2 (split; [reflexivity|]).
  intros Hn Ht.
  unfold EmailSender.generatePreview, EmailSender.sendEmail, EmailSender.falsy.
  simpl.
  apply String.eqb_neq in Hn, Ht, Hh. rewrite Hn, Ht, Hh. simpl.
  split; [reflexivity|].
  intros Hsub. apply String.eqb_neq in Hsub. rewrite Hsub. simpl.
  eexists. split; [reflexivity|]. split; reflexivity.
Qed.

Lemma author_row_mail_is_about_that_row_witness :
  exists p,
    ResultsPageDialogs.email_sender
      (ResultsPageDialogs.click_author_send Sample.extracted_paper Sample.ada
         ResultsPageDialogs.initial) = Some p
    /\ EmailSender.authorEmail p = "ada@example.org".
Proof.
  destruct (author_row_mail_is_about_that_row Sample.extracted_paper Sample.ada
              ResultsPageDialogs.initial "ada@example.org" "homepage" "Hello"
              eq_refl) as (_ & _ & _ & p & Hp & _ & He & _).
  exists p. auto.
Defined.

(** ** A batch in progress *)

(** X18: from the moment the dialog is loading until a completion frame
    arrives, nothing the user does changes it: the subject and the
    boxes stay as they were posted, the start button stays disabled,
    and the dialog cannot be closed, so the page does not hand over to
    the top progress bar while the run lasts. *)
Theorem running_dialog_is_frozen
  (searchId : Z) (st : BatchEmailSender.state)
  (evs : list BatchEmailSender.event) (page : ResultsPageDialogs.state) :
  BatchEmailSender.isLoading st = true ->
  BatchEmailSender.isComplete st = false ->
  forallb (fun ev => negb (BatchEmailSender.completes ev)) evs = true ->
  BatchEmailSender.body_of searchId (fst (BatchEmailSender.run searchId st evs))
  = BatchEmailSender.body_of searchId st
  /\ BatchEmailSender.isLoading (fst (BatchEmailSender.run searchId st evs)) = true
  /\ BatchEmailSender.start_button (fst (BatchEmailSender.run searchId st evs))
     = Some true
  /\ ResultsPageDialogs.click_close_batch
       (fst (BatchEmailSender.run searchId st evs)) page = page.
Proof.
  revert st. induction evs as [|ev evs IH]; intros st Hl Hc Hev.
  - simpl. unfold BatchEmailSender.start_button,
      BatchEmailSender.start_button_disabled,
      ResultsPageDialogs.click_close_batch, BatchEmailSender.close_disabled.
    rewrite Hl, Hc. auto.
  - simpl in Hev. apply andb_prop in Hev. destruct Hev as [Hev1 Hev].
    apply negb_true_iff in Hev1.
    assert (Hstep : BatchEmailSender.isLoading
                      (fst (BatchEmailSender.step searchId st ev)) = true
                    /\ BatchEmailSender.isComplete
                         (fst (BatchEmailSender.step searchId st ev)) = false
                    /\ BatchEmailSender.body_of searchId
                         (fst (BatchEmailSender.step searchId st ev))
                       = BatchEmailSender.body_of searchId st).
    { destruct ev as [v|c|c|answer|frame]; simpl; rewrite ?Hl; simpl; auto.
      - unfold BatchEmailSender.click_start, BatchEmailSender.start_button,
          BatchEmailSender.start_button_disabled. rewrite Hl, Hc. simpl. auto.
      - destruct frame as [d|]; simpl; [|auto].
        simpl in Hev1. unfold is_completion in Hev1. rewrite Hev1. simpl. auto. }
    destruct Hstep as (Hl1 & Hc1 & Hb1).
    cbn [BatchEmailSender.run].
    destruct (BatchEmailSender.step searchId st ev) as [st1 done1].
    simpl in Hl1, Hc1, Hb1.
    specialize (IH st1 Hl1 Hc1 Hev).
    destruct (BatchEmailSender.run searchId st1 evs) as [st2 done2].
    simpl in *. rewrite <- Hb1. exact IH.
Qed.

Lemma running_dialog_is_frozen_witness :
  BatchEmailSender.body_of 5
    (fst (BatchEmailSender.run 5
            (BatchEmailSender.starting BatchEmailSender.initial)
            [BatchEmailSender.SetSubject (Js.of_ascii_string "Other");
             BatchEmailSender.SetIncludePdfEmails false;
             BatchEmailSender.ClickStart BatchEmailSender.ResponseOk]))
  = BatchEmailSender.body_of 5
      (BatchEmailSender.starting BatchEmailSender.initial)
  /\ ResultsPageDialogs.click_close_batch
       (fst (BatchEmailSender.run 5
               (BatchEmailSender.starting BatchEmailSender.initial)
               [BatchEmailSender.SetSubject (Js.of_ascii_string "Other");
                BatchEmailSender.SetIncludePdfEmails false;
                BatchEmailSender.ClickStart BatchEmailSender.ResponseOk]))
       ResultsPageDialogs.initial
     = ResultsPageDialogs.initial.
Proof.
  destruct (running_dialog_is_frozen 5
              (BatchEmailSender.starting BatchEmailSender.initial)
              [BatchEmailSender.SetSubject (Js.of_ascii_string "Other");
               BatchEmailSender.SetIncludePdfEmails false;
               BatchEmailSender.ClickStart BatchEmailSender.ResponseOk]
              ResultsPageDialogs.initial eq_refl eq_refl eq_refl)
    as (H1 & _ & _ & H4).
  split; assumption.
Defined.

(** ** The shell scripts *)

(** X19: the installation test exits with 0 exactly when all six tested
    commands succeed, and with 1 otherwise, after exactly one failure
    message; it announces success and overwrites [.env] only in the
    first case; and it deactivates the test environment exactly when it
    had activated it, whatever fails later. *)
Theorem installation_test_outcomes (s : TestInstallation.statuses) :
  (snd (TestInstallation.script s) = 0
   <-> TestInstallation.all_passed s = true)
  /\ (snd (TestInstallation.script s) = 1
      <-> TestInstallation.all_passed s = false)
  /\ length (List.filter TestInstallation.is_failure
               (fst (TestInstallation.script s)))
     = (if TestInstallation.all_passed s then 0 else 1)%nat
  /\ (In TestInstallation.SayAllPassed (fst (TestInstallation.script s))
      <-> TestInstallation.all_passed s = true)
  /\ (In TestInstallation.WriteEnv (fst (TestInstallation.script s))
      <-> TestInstallation.all_passed s = true)
  /\ (In TestInstallation.CondaDeactivate (fst (TestInstallation.script s))
      <-> TestInstallation.conda_found s = true
          /\ TestInstallation.env_created s = true
          /\ TestInstallation.env_activated s = true).
Proof.
  destruct s as [[] [] [] [] [] []]; vm_compute;
    repeat split; intros; try discriminate; try tauto; try lia;
    repeat match goal with
           | H : _ \/ _ |- _ => destruct H
           | H : _ /\ _ |- _ => destruct H
           end; try discriminate; try tauto.
Qed.

(** X20: the start script starts the front end only behind a back end
    that was started and answered the health check; when the check
    fails, the back end it started is killed and the script exits with
    1; [npm install] runs exactly when the front end is about to start
    and [node_modules] is missing; and the interrupt handler frees the
    same ports the script frees when it starts. *)
Theorem start_script_outcomes (s : RunScript.statuses) :
  (In RunScript.StartFrontend (fst (RunScript.script s))
   <-> RunScript.env_activated s = true /\ RunScript.backend_healthy s = true)
  /\ (In RunScript.StartBackend (fst (RunScript.script s))
      <-> RunScript.env_activated s = true)
  /\ (RunScript.env_activated s = true -> RunScript.backend_healthy s = false ->
      last (fst (RunScript.script s)) = Some RunScript.KillBackend
      /\ snd (RunScript.script s) = 1)
  /\ (In RunScript.NpmInstall (fst (RunScript.script s))
      <-> RunScript.env_activated s = true /\ RunScript.backend_healthy s = true
          /\ RunScript.node_modules_present s = false)
  /\ (snd (RunScript.script s) = 0
      <-> In RunScript.StartFrontend (fst (RunScript.script s)))
  /\ RunScript.freed (fst RunScript.cleanup)
     = RunScript.freed (fst (RunScript.script s)).
Proof.
  destruct s as [[] [] []]; vm_compute;
    repeat split; intros; try discriminate; try tauto; try lia;
    repeat match goal with
           | H : _ \/ _ |- _ => destruct H
           | H : _ /\ _ |- _ => destruct H
           end; try discriminate; try tauto.
Qed.

(** ** Rows and the extract button *)

(** X21: an author's row shows nothing exactly when the article has no
    [author_emails] at all, which (for an article with author links) is
    exactly when the extract button is there.  So once an extraction has
    stored a set, even an empty one, the button is gone and a click
    cannot extract again.  Rows are keyed by name only: two authors with
    the same name show the same cell. *)
Theorem rows_and_extract_button
  (pg : ResultsPage.page) (e : ResultsPage.env)
  (a : Article.t) (author other : AuthorLink.t) :
  (ResultsPage.render_author_cell a author = ResultsPage.Nothing
   <-> Article.author_emails a = None)
  /\ (ResultsPage.extract_button_rendered a = true ->
      Article.author_emails a = None)
  /\ (Article.author_emails a = None ->
      (exists l ls, Article.author_links a = Some (l :: ls)) ->
      ResultsPage.extract_button_rendered a = true)
  /\ (Article.author_emails a <> None ->
      ResultsPage.step pg (ResultsPage.ClickExtract e a) = pg)
  /\ (AuthorLink.name author = AuthorLink.name other ->
      ResultsPage.render_author_cell a author
      = ResultsPage.render_author_cell a other).
Proof.
  split; [|split; [|split; [|split]]].
  - unfold ResultsPage.render_author_cell, ResultsPage.find_author_email.
    destruct (Article.author_emails a) as [es|]; [|done].
    split; [|discriminate].
    destruct (find _ es) as [entry|]; [|discriminate].
    destruct (AuthorEmail.has_email entry && _); [discriminate|].
    destruct (AuthorEmail.is_pdf_fallback entry); discriminate.
  - unfold ResultsPage.extract_button_rendered.
    destruct (Article.author_links a) as [[|l ls]|]; try discriminate.
    destruct (Article.author_emails a); [discriminate | done].
  - intros Hn (l & ls & Hl). unfold ResultsPage.extract_button_rendered.
    by rewrite Hl, Hn.
  - intros Hn. simpl. unfold ResultsPage.extract_button_rendered.
    destruct (Article.author_links a) as [[|l ls]|]; try reflexivity.
    destruct (Article.author_emails a); [reflexivity | congruence].
  - intros Hn. unfold ResultsPage.render_author_cell,
      ResultsPage.find_author_email. by rewrite Hn.
Qed.

Lemma rows_and_extract_button_witness :
  ResultsPage.step ResultsPage.initial
    (ResultsPage.ClickExtract Sample.proxy_connected Sample.extracted_paper)
  = ResultsPage.initial.
Proof.
  destruct (rows_and_extract_button ResultsPage.initial Sample.proxy_connected
              Sample.extracted_paper Sample.ada Sample.bob)
    as (_ & _ & _ & H & _).
  apply H. discriminate.
Defined.
